(** * OAuth example applications: the Twitter web server and the Plurk CLI

    A shallow embedding of the two example programs of the repository
    ([examples/twitter/main.go] and the Plurk command line client) and of the
    properties of their authorization flow, credential store and signed API
    calls.

    The programs are glue around three collaborators that are not part of
    the repository: the [oauth] package (request signing and the calls to
    the remote service), the HTTP transport, and [encoding/json].  Every
    function of the programs takes the behaviour of the collaborators it
    calls as an argument (a stub, in the words of the specification), and
    the theorems hold for all of them. *)

From Stdlib Require Import Ascii.
From stdpp Require Import gmap strings pretty list.

Local Open Scope string_scope.
Local Open Scope list_scope.

(** ** Go values shared by the two programs *)

(** [error] values, by the place they come from.  [Error] is the method
    [Error() string]. *)
Inductive error :=
  | UpstreamErr (msg : string)   (* returned by the oauth package or the transport *)
  | Errorf (msg : string)        (* built with fmt.Errorf *)
  | JSONErr (msg : string)       (* returned by encoding/json *)
  | IOErr (msg : string).        (* returned by io/ioutil *)

Definition Error (e : error) : string :=
  match e with
  | UpstreamErr m | Errorf m | JSONErr m | IOErr m => m
  end.

Module oauth.

(** [oauth.Credentials] *)
Record Credentials := { Token : string; Secret : string }.

(** [oauth.Client] *)
Record Client := {
  Credentials_ : Credentials;
  TemporaryCredentialRequestURI : string;
  ResourceOwnerAuthorizationURI : string;
  TokenRequestURI : string
}.

Definition setCredentials (c : Client) (k : Credentials) : Client :=
  {| Credentials_ := k;
     TemporaryCredentialRequestURI := TemporaryCredentialRequestURI c;
     ResourceOwnerAuthorizationURI := ResourceOwnerAuthorizationURI c;
     TokenRequestURI := TokenRequestURI c |}.

Definition setResourceOwnerAuthorizationURI (c : Client) (u : string) : Client :=
  {| Credentials_ := Credentials_ c;
     TemporaryCredentialRequestURI := TemporaryCredentialRequestURI c;
     ResourceOwnerAuthorizationURI := u;
     TokenRequestURI := TokenRequestURI c |}.

End oauth.

Global Instance Credentials_eq_dec : EqDecision oauth.Credentials.
Proof. solve_decision. Defined.

(** [url.Values], a [map[string][]string]. *)
Abbreviation Values := (gmap string (list string)).

(** An [*http.Response] as the programs use it: the status code, the URL of
    the request it answers, and what reading the body to its end gives (the
    bytes read, and the error that stopped the reading, if any). *)
Record HTTPResponse := {
  StatusCode : Z;
  RequestURL : string;
  Body : string;
  BodyErr : option error
}.

(** The calls of the programs to the outside world, in the order they make
    them.  An event records the call, whatever its answer: [EvWriteFile] is
    a call of [ioutil.WriteFile], which may fail. *)
Inductive Event :=
  | EvReadFile (path : string)
  | EvWriteFile (path content : string)
  | EvTemporaryCredentials (c : oauth.Client) (callback : string)
  | EvToken (c : oauth.Client) (temp : oauth.Credentials) (verifier : string)
  | EvGet (c : oauth.Client) (cred : option oauth.Credentials) (url : string) (form : Values)
  | EvPost (c : oauth.Client) (cred : option oauth.Credentials) (url : string) (form : Values)
  | EvPostForm (url : string) (form : Values)
  | EvStdout (s : string)
  | EvLog (s : string).

(** Readings of a trace: how many files were read, which files were
    written with what, and the calls of the authorization handshake. *)
Definition isRead (e : Event) : bool :=
  match e with EvReadFile _ => true | _ => false end.

Definition reads (t : list Event) : nat := length (filter isRead t).

Definition written (t : list Event) : list (string * string) :=
  omap (λ e, match e with EvWriteFile p c => Some (p, c) | _ => None end) t.

Definition isHandshake (e : Event) : bool :=
  match e with EvTemporaryCredentials _ _ | EvToken _ _ _ => true | _ => false end.

Definition handshake (t : list Event) : list Event := filter isHandshake t.

Definition isRequest (e : Event) : bool :=
  match e with
  | EvGet _ _ _ _ | EvPost _ _ _ _ | EvPostForm _ _ => true
  | _ => false
  end.

Definition requests (t : list Event) : list Event := filter isRequest t.

(** A stretch of a trace with no file read or written and no call of the
    handshake. *)
Definition quiet (t : list Event) : Prop :=
  reads t = 0 ∧ written t = [] ∧ handshake t = [].

(** The [oauth] package together with the remote service and the transport
    behind it, as one call of each method answers. *)
Record Signer := {
  RequestTemporaryCredentials : oauth.Client → string → oauth.Credentials + error;
  AuthorizationURL : oauth.Client → oauth.Credentials → string;
  RequestToken : oauth.Client → oauth.Credentials → string → oauth.Credentials + error;
  Get : oauth.Client → option oauth.Credentials → string → Values → HTTPResponse + error;
  Post : oauth.Client → option oauth.Credentials → string → Values → HTTPResponse + error;
  SignParam : oauth.Client → option oauth.Credentials → string → string → Values → Values;
  PostForm : string → Values → HTTPResponse + error
}.

(** The file system: what [ioutil.ReadFile] gives for a path and whether
    [ioutil.WriteFile] fails for a path and content. *)
Record OS := {
  ReadFile : string → string + error;
  WriteFile : string → string → option error
}.

(** How a run ends: normally with a value, or in [log.Fatal] / [log.Fatalf],
    which print the message and leave the process. *)
Inductive Outcome (A : Type) :=
  | Returned (a : A)
  | Fatal (msg : string).
Global Arguments Returned {A} a.
Global Arguments Fatal {A} msg.

(** ** The Twitter web server *)

Module Twitter.

(** The package-level variables of the server and the trace of its
    outbound calls. *)
Record World := {
  oauthClient : oauth.Client;
  signinOAuthClient : oauth.Client;
  secrets : gmap string string;
  trace : list Event
}.

Definition setClients (w : World) (c sc : oauth.Client) : World :=
  {| oauthClient := c; signinOAuthClient := sc;
     secrets := secrets w; trace := trace w |}.

Definition setSecrets (w : World) (m : gmap string string) : World :=
  {| oauthClient := oauthClient w; signinOAuthClient := signinOAuthClient w;
     secrets := m; trace := trace w |}.

Definition emit (e : Event) (w : World) : World :=
  {| oauthClient := oauthClient w; signinOAuthClient := signinOAuthClient w;
     secrets := secrets w; trace := trace w ++ [e] |}.

(** *** The credential store *)

Definition putCredentials (cred : oauth.Credentials) (w : World) : World :=
  setSecrets w (<[oauth.Token cred := oauth.Secret cred]> (secrets w)).

Definition getCredentials (token : string) (w : World) : option oauth.Credentials :=
  match secrets w !! token with
  | Some secret => Some {| oauth.Token := token; oauth.Secret := secret |}
  | None => None
  end.

Definition deleteCredentials (token : string) (w : World) : World :=
  setSecrets w (delete token (secrets w)).

(** Operations of the store, for statements about sequences of them. *)
Inductive StoreOp :=
  | OpPut (cred : oauth.Credentials)
  | OpGet (token : string)
  | OpDelete (token : string).

Definition applyOp (w : World) (op : StoreOp) : World :=
  match op with
  | OpPut cred => putCredentials cred w
  | OpGet _ => w
  | OpDelete token => deleteCredentials token w
  end.

Definition applyOps (ops : list StoreOp) (w : World) : World :=
  foldl applyOp w ops.

(** Whether the operation deletes [token] or puts credentials with it. *)
Definition touches (token : string) (op : StoreOp) : bool :=
  match op with
  | OpPut cred => bool_decide (oauth.Token cred = token)
  | OpGet _ => false
  | OpDelete t => bool_decide (t = token)
  end.

(** *** Requests and responses *)

(** [http.Cookie], with the fields the server sets.  [Expires] is a time
    in seconds. *)
Record Cookie := {
  Name : string;
  Path : string;
  HttpOnly : bool;
  Value : string;
  MaxAge : Z;
  Expires : option Z
}.

(** [*http.Request]: the host, the path of the URL, the form values and
    the cookies sent by the client. *)
Record Request := {
  Host : string;
  URLPath : string;
  Form : Values;
  Cookies : list (string * string)
}.

(** [r.FormValue(key)]: the first value of the key, or the empty string. *)
Definition FormValue (r : Request) (key : string) : string :=
  match Form r !! key with
  | Some (v :: _) => v
  | _ => ""
  end.

(** [r.Cookie(name)]: the first cookie of that name, if any. *)
Definition Cookie_ (r : Request) (name : string) : option string :=
  snd <$> List.find (λ c, bool_decide (fst c = name)) (Cookies r).

Inductive Template :=
  homeLoggedOutTmpl | homeTmpl | messagesTmpl | timelineTmpl | followTmpl.

(** What a handler writes to its [http.ResponseWriter]: the cookies set
    with [http.SetCookie], then one of [http.Error], [http.Redirect],
    [http.NotFound] or [respond] with a template and its data. *)
Inductive Written (JSON : Type) :=
  | Error_ (msg : string) (code : Z)
  | Redirect_ (url : string) (code : Z)
  | NotFound_
  | Respond_ (t : Template) (data : option JSON).
Global Arguments Error_ {JSON} msg code.
Global Arguments Redirect_ {JSON} url code.
Global Arguments NotFound_ {JSON}.
Global Arguments Respond_ {JSON} t data.

Record Response (JSON : Type) := {
  SetCookies : list Cookie;
  Out : Written JSON
}.
Global Arguments SetCookies {JSON} r.
Global Arguments Out {JSON} r.

Definition http_Error {JSON} (msg : string) (code : Z) : Response JSON :=
  {| SetCookies := []; Out := Error_ msg code |}.

Definition http_Redirect {JSON} (cookies : list Cookie) (url : string) (code : Z)
  : Response JSON :=
  {| SetCookies := cookies; Out := Redirect_ url code |}.

Definition respond {JSON} (t : Template) (data : option JSON) : Response JSON :=
  {| SetCookies := []; Out := Respond_ t data |}.

(** *** The handlers *)

Section Handlers.

(** The decoded JSON values ([interface{}] trees) and [encoding/json]:
    [Decode] into a slice of objects, into an object, and [Unmarshal]
    into [oauth.Credentials]; a decoder reads the body of a response. *)
Variable JSON : Type.
Variable DecodeSlice : string → option error → JSON + error.
Variable DecodeMap : string → option error → JSON + error.

Definition serveSignin (s : Signer) (r : Request) (w : World)
  : Response JSON * World :=
  let callback := "http://" +:+ Host r +:+ "/callback" in
  let w := emit (EvTemporaryCredentials (signinOAuthClient w) callback) w in
  match RequestTemporaryCredentials s (signinOAuthClient w) callback with
  | inr err => (http_Error ("Error getting temp cred, " +:+ Error err) 500, w)
  | inl tempCred =>
      let w := putCredentials tempCred w in
      (http_Redirect [] (AuthorizationURL s (signinOAuthClient w) tempCred) 302, w)
  end.

Definition serveAuthorize (s : Signer) (r : Request) (w : World)
  : Response JSON * World :=
  let callback := "http://" +:+ Host r +:+ "/callback" in
  let w := emit (EvTemporaryCredentials (oauthClient w) callback) w in
  match RequestTemporaryCredentials s (oauthClient w) callback with
  | inr err => (http_Error ("Error getting temp cred, " +:+ Error err) 500, w)
  | inl tempCred =>
      let w := putCredentials tempCred w in
      (http_Redirect [] (AuthorizationURL s (oauthClient w) tempCred) 302, w)
  end.

Definition serveOAuthCallback (s : Signer) (r : Request) (w : World)
  : Response JSON * World :=
  match getCredentials (FormValue r "oauth_token") w with
  | None => (http_Error "Unknown oauth_token." 500, w)
  | Some tempCred =>
      let w := deleteCredentials (oauth.Token tempCred) w in
      let verifier := FormValue r "oauth_verifier" in
      let w := emit (EvToken (oauthClient w) tempCred verifier) w in
      match RequestToken s (oauthClient w) tempCred verifier with
      | inr err =>
          (http_Error ("Error getting request token, " +:+ Error err) 500, w)
      | inl tokenCred =>
          let w := putCredentials tokenCred w in
          (http_Redirect
             [ {| Name := "auth"; Path := "/"; HttpOnly := true;
                  Value := oauth.Token tokenCred; MaxAge := 0;
                  Expires := None |} ]
             "/" 302, w)
      end
  end.

(** [now] is [time.Now()], in seconds. *)
Definition serveLogout (now : Z) (r : Request) (w : World)
  : Response JSON * World :=
  (http_Redirect
     [ {| Name := "auth"; Path := "/"; HttpOnly := true; Value := "";
          MaxAge := -1; Expires := Some (now - 3600)%Z |} ]
     "/" 302, w).

(** [decodeResponse]; the decoder stands for
    [json.NewDecoder(resp.Body).Decode(data)] at the type of [data]. *)
Definition decodeResponse (Decode : string → option error → JSON + error)
    (resp : HTTPResponse) : JSON + error :=
  if bool_decide (StatusCode resp ≠ 200%Z) then
    let p := Body resp in
    inr (Errorf ("Get " +:+ RequestURL resp +:+ " returned status "
                   +:+ pretty (StatusCode resp) +:+ ", " +:+ p))
  else Decode (Body resp) (BodyErr resp).

Definition apiGet (s : Signer) (Decode : string → option error → JSON + error)
    (cred : option oauth.Credentials) (urlStr : string) (form : Values)
    (w : World) : (JSON + error) * World :=
  let w := emit (EvGet (oauthClient w) cred urlStr form) w in
  match Get s (oauthClient w) cred urlStr form with
  | inr err => (inr err, w)
  | inl resp => (decodeResponse Decode resp, w)
  end.

Definition apiPost (s : Signer) (Decode : string → option error → JSON + error)
    (cred : option oauth.Credentials) (urlStr : string) (form : Values)
    (w : World) : (JSON + error) * World :=
  let w := emit (EvPost (oauthClient w) cred urlStr form) w in
  match Post s (oauthClient w) cred urlStr form with
  | inr err => (inr err, w)
  | inl resp => (decodeResponse Decode resp, w)
  end.

Definition Handler : Type :=
  Signer → Request → option oauth.Credentials → World → Response JSON * World.

Definition serveHome : Handler := λ s r cred w,
  if bool_decide (URLPath r ≠ "/") then ({| SetCookies := []; Out := NotFound_ |}, w)
  else match cred with
       | None => (respond homeLoggedOutTmpl None, w)
       | Some _ => (respond homeTmpl None, w)
       end.

Definition serveTimeline : Handler := λ s r cred w,
  match apiGet s DecodeSlice cred
          "http://api.twitter.com/1/statuses/home_timeline.json" ∅ w with
  | (inr err, w) => (http_Error ("Error getting timeline, " +:+ Error err) 500, w)
  | (inl timeline, w) => (respond timelineTmpl (Some timeline), w)
  end.

Definition serveMessages : Handler := λ s r cred w,
  match apiGet s DecodeSlice cred
          "http://api.twitter.com/1/direct_messages.json" ∅ w with
  | (inr err, w) => (http_Error ("Error getting timeline, " +:+ Error err) 500, w)
  | (inl dms, w) => (respond messagesTmpl (Some dms), w)
  end.

Definition serveFollow : Handler := λ s r cred w,
  match apiPost s DecodeMap cred
          "https://api.twitter.com/1.1/friendships/create.json"
          (<["screen_name" := ["gburd"]]> (<["follow" := ["true"]]> ∅)) w with
  | (inr err, w) => (http_Error ("Error following, " +:+ Error err) 500, w)
  | (inl profile, w) => (respond followTmpl (Some profile), w)
  end.

(** [authHandler] and its [ServeHTTP]. *)
Record authHandler := { handler : Handler; optional : bool }.

Definition ServeHTTP (h : authHandler) (s : Signer) (r : Request) (w : World)
  : Response JSON * World :=
  let cred := match Cookie_ r "auth" with
              | Some v => getCredentials v w
              | None => None
              end in
  if bool_decide (cred = None) && negb (optional h)
  then (http_Error "Not logged in." 403, w)
  else handler h s r cred w.

(** The routes registered by [main], and the requests the server can be
    sent: the path selects the handler, [/] taking every path that has
    no handler of its own. *)
Definition route (s : Signer) (now : Z) (r : Request) (w : World)
  : Response JSON * World :=
  if bool_decide (URLPath r = "/timeline") then
    ServeHTTP {| handler := serveTimeline; optional := false |} s r w
  else if bool_decide (URLPath r = "/messages") then
    ServeHTTP {| handler := serveMessages; optional := false |} s r w
  else if bool_decide (URLPath r = "/follow") then
    ServeHTTP {| handler := serveFollow; optional := false |} s r w
  else if bool_decide (URLPath r = "/signin") then serveSignin s r w
  else if bool_decide (URLPath r = "/authorize") then serveAuthorize s r w
  else if bool_decide (URLPath r = "/logout") then serveLogout now r w
  else if bool_decide (URLPath r = "/callback") then serveOAuthCallback s r w
  else ServeHTTP {| handler := serveHome; optional := true |} s r w.

(** One request served: the collaborators' behaviour while it is served,
    the time, and the request. *)
Definition Served : Type := Signer * Z * Request.

Definition serve1 (w : World) (x : Served) : World :=
  snd (route x.1.1 x.1.2 x.2 w).

Definition serve (xs : list Served) (w : World) : World := foldl serve1 w xs.

(** The tokens of the credentials that the remote service hands out
    while [x] is served in [w], which are the ones the handlers put in
    the store: temporary credentials at the two entry points of the
    flow, access credentials at a callback that passes the lookup. *)
Definition issued (x : Served) (w : World) : list string :=
  let s := x.1.1 in
  let r := x.2 in
  let callback := "http://" +:+ Host r +:+ "/callback" in
  if bool_decide (URLPath r = "/signin") then
    match RequestTemporaryCredentials s (signinOAuthClient w) callback with
    | inl tempCred => [oauth.Token tempCred]
    | inr _ => []
    end
  else if bool_decide (URLPath r = "/authorize") then
    match RequestTemporaryCredentials s (oauthClient w) callback with
    | inl tempCred => [oauth.Token tempCred]
    | inr _ => []
    end
  else if bool_decide (URLPath r = "/callback") then
    match getCredentials (FormValue r "oauth_token") w with
    | Some tempCred =>
        match RequestToken s (oauthClient w) tempCred
                (FormValue r "oauth_verifier") with
        | inl tokenCred => [oauth.Token tokenCred]
        | inr _ => []
        end
    | None => []
    end
  else [].

Fixpoint issuedAll (xs : list Served) (w : World) : list string :=
  match xs with
  | [] => []
  | x :: xs => issued x w ++ issuedAll xs (serve1 w x)
  end.



(** Whether the request is a callback that names the token [T]. *)
Definition completes (T : string) (x : Served) : bool :=
  bool_decide (URLPath x.2 = "/callback")
  && bool_decide (FormValue x.2 "oauth_token" = T).

(** *** Startup *)

(** [json.Unmarshal(b, &oauthClient.Credentials)]: the credentials after
    the call, given the bytes and the credentials before it. *)
Variable Unmarshal : string → oauth.Credentials → oauth.Credentials + error.

(** The package-level variables as their declarations initialise them. *)
Definition initial : World :=
  {| oauthClient :=
       {| oauth.Credentials_ := {| oauth.Token := ""; oauth.Secret := "" |};
          oauth.TemporaryCredentialRequestURI :=
            "http://api.twitter.com/oauth/request_token";
          oauth.ResourceOwnerAuthorizationURI :=
            "http://api.twitter.com/oauth/authorize";
          oauth.TokenRequestURI := "http://api.twitter.com/oauth/access_token" |};
     signinOAuthClient :=
       {| oauth.Credentials_ := {| oauth.Token := ""; oauth.Secret := "" |};
          oauth.TemporaryCredentialRequestURI := "";
          oauth.ResourceOwnerAuthorizationURI := "";
          oauth.TokenRequestURI := "" |};
     secrets := ∅;
     trace := [] |}.

Definition readCredentials (os : OS) (credPath : string) (w : World)
  : option error * World :=
  let w := emit (EvReadFile credPath) w in
  match ReadFile os credPath with
  | inr err => (Some err, w)
  | inl b =>
      match Unmarshal b (oauth.Credentials_ (oauthClient w)) with
      | inr err => (Some err, w)
      | inl c =>
          (None, setClients w (oauth.setCredentials (oauthClient w) c)
                              (signinOAuthClient w))
      end
  end.

(** [main] up to [http.ListenAndServe]: the configuration is read and
    the sign-in client is derived from the client. *)
Definition startup (os : OS) (credPath : string) : Outcome World :=
  match readCredentials os credPath initial with
  | (Some err, _) => Fatal ("Error reading configuration, " +:+ Error err)
  | (None, w) =>
      let signin := oauthClient w in
      let signin := oauth.setResourceOwnerAuthorizationURI signin
                      "http://api.twitter.com/oauth/authenticate" in
      Returned (setClients w (oauthClient w) signin)
  end.

(** [main], serving the requests [xs] once it listens. *)
Definition main (os : OS) (credPath : string) (xs : list Served) : Outcome World :=
  match startup os credPath with
  | Fatal msg => Fatal msg
  | Returned w => Returned (serve xs w)
  end.

End Handlers.

End Twitter.

(** ** The Plurk command line client *)

Module Plurk.

Record PlurkCredentials := {
  ConsumerToken : string;
  ConsumerSecret : string;
  AccessToken : string;
  AccessSecret : string
}.

Definition baseURL : string := "https://www.plurk.com".

(** The consumer pair of a configuration, and a configuration with the
    access credentials replaced, as [GetAccessToken] assigns them. *)
Definition consumer (cred : PlurkCredentials) : oauth.Credentials :=
  {| oauth.Token := ConsumerToken cred; oauth.Secret := ConsumerSecret cred |}.

Definition withAccess (cred : PlurkCredentials) (token : oauth.Credentials)
  : PlurkCredentials :=
  {| ConsumerToken := ConsumerToken cred; ConsumerSecret := ConsumerSecret cred;
     AccessToken := oauth.Token token; AccessSecret := oauth.Secret token |}.

(** The package-level [oauthClient], the words waiting on the standard
    input, and the trace of what the program did to the outside world. *)
Record World := {
  oauthClient : oauth.Client;
  stdin : list string;
  trace : list Event
}.

Definition initial (input : list string) : World :=
  {| oauthClient :=
       {| oauth.Credentials_ := {| oauth.Token := ""; oauth.Secret := "" |};
          oauth.TemporaryCredentialRequestURI :=
            "https://www.plurk.com/OAuth/request_token";
          oauth.ResourceOwnerAuthorizationURI :=
            "https://www.plurk.com/OAuth/authorize";
          oauth.TokenRequestURI := "https://www.plurk.com/OAuth/access_token" |};
     stdin := input;
     trace := [] |}.

(** Programs: a state transformer over the world that may leave the
    process. *)
Definition Prog (A : Type) : Type := World → Outcome A * World.

Global Instance Prog_ret : MRet Prog := λ A a w, (Returned a, w).

Global Instance Prog_bind : MBind Prog := λ A B k c w,
  match c w with
  | (Returned a, w') => k a w'
  | (Fatal msg, w') => (Fatal msg, w')
  end.

Definition log_Fatal {A} (msg : string) : Prog A := λ w, (Fatal msg, w).

Definition emit (e : Event) : Prog unit := λ w,
  (Returned (),
   {| oauthClient := oauthClient w; stdin := stdin w; trace := trace w ++ [e] |}).

Definition getClient : Prog oauth.Client := λ w, (Returned (oauthClient w), w).

Definition setClient (c : oauth.Client) : Prog unit := λ w,
  (Returned (), {| oauthClient := c; stdin := stdin w; trace := trace w |}).

(** [fmt.Scan(&pinCode)] on a [pinCode] that holds the empty string: the
    next word of the input, and the empty string when there is none. *)
Definition fmt_Scan : Prog string := λ w,
  match stdin w with
  | [] => (Returned "", w)
  | word :: rest =>
      (Returned word,
       {| oauthClient := oauthClient w; stdin := rest; trace := trace w |})
  end.

Definition nl : string := String "010"%char "".

Section Program.

(** [encoding/json] at [PlurkCredentials]. *)
Variable Unmarshal : string → PlurkCredentials + error.
Variable MarshalIndent : PlurkCredentials → string + error.

Definition ReadCredentials (os : OS) (credPath : string)
  : Prog (PlurkCredentials + error) :=
  _ ← emit (EvReadFile credPath);
  match ReadFile os credPath with
  | inr err => mret (inr err)
  | inl b =>
      match Unmarshal b with
      | inr err => mret (inr err)
      | inl cred => mret (inl cred)
      end
  end.

(** [doAuth] returns the pair of Go, credentials and error. *)
Definition doAuth (s : Signer) (requestToken : oauth.Credentials)
  : Prog (oauth.Credentials * option error) :=
  c ← getClient;
  let _url := AuthorizationURL s c requestToken in
  _ ← emit (EvStdout ("Open the following URL and authorize it: " +:+ _url +:+ nl));
  _ ← emit (EvStdout "Input the PIN code: ");
  pinCode ← fmt_Scan;
  _ ← emit (EvToken c requestToken pinCode);
  match RequestToken s c requestToken pinCode with
  | inr err => log_Fatal ("failed to request token:" +:+ Error err)
  | inl accessToken => mret (accessToken, None)
  end.

(** The result of [GetAccessToken]: the triple of Go, and the
    [PlurkCredentials] its argument points to, as the call leaves them. *)
Definition GetAccessToken (s : Signer) (cred : PlurkCredentials)
  : Prog ((option oauth.Credentials * bool * option error) * PlurkCredentials) :=
  c ← getClient;
  _ ← setClient (oauth.setCredentials c
         {| oauth.Token := ConsumerToken cred; oauth.Secret := ConsumerSecret cred |});
  let authorized := false in
  if bool_decide (AccessToken cred ≠ "") && bool_decide (AccessSecret cred ≠ "")
  then
    let token := {| oauth.Token := AccessToken cred;
                    oauth.Secret := AccessSecret cred |} in
    mret ((Some token, authorized, None), cred)
  else
    c ← getClient;
    _ ← emit (EvTemporaryCredentials c "");
    match RequestTemporaryCredentials s c "" with
    | inr err =>
        _ ← emit (EvLog ("failed to request temporary credentials: " +:+ Error err));
        mret ((None, false, Some err), cred)
    | inl requestToken =>
        '(token, err) ← doAuth s requestToken;
        match err with
        | Some err =>
            _ ← emit (EvLog ("failed to request temporary credentials: "
                               +:+ Error err));
            mret ((None, false, Some err), cred)
        | None =>
            let cred := {| ConsumerToken := ConsumerToken cred;
                           ConsumerSecret := ConsumerSecret cred;
                           AccessToken := oauth.Token token;
                           AccessSecret := oauth.Secret token |} in
            let authorized := true in
            mret ((Some token, authorized, None), cred)
        end
    end.

Definition getAccessToken {R} (impl_ : PlurkCredentials → Prog R)
    (cred : PlurkCredentials) : Prog R :=
  impl_ cred.

(** [callAPI_]; the logged lines leave out the formatted form values. *)
Definition callAPI_ (s : Signer) (token : option oauth.Credentials)
    (_url : string) (opt : gmap string string) : Prog (string + error) :=
  let apiURL := baseURL +:+ _url in
  let param : Values := (λ v, [v]) <$> opt in
  c ← getClient;
  let param := SignParam s c token "POST" apiURL param in
  _ ← emit (EvPostForm apiURL param);
  match PostForm s apiURL param with
  | inr err =>
      _ ← emit (EvLog ("failed to call API: " +:+ Error err +:+ " " +:+ apiURL));
      mret (inr err)
  | inl res =>
      match BodyErr res with
      | Some err =>
          _ ← emit (EvLog ("failed to get response: " +:+ Error err));
          mret (inr err)
      | None =>
          let body := Body res in
          if bool_decide (StatusCode res ≠ 200%Z) then
            _ ← emit (EvLog ("failed to call API err=200: <nil> " +:+ apiURL));
            mret (inr (Errorf body))
          else mret (inl body)
      end
  end.

Definition callAPI
    (impl_ : option oauth.Credentials → string → gmap string string
             → Prog (string + error))
    (token : option oauth.Credentials) (_url : string) (opt : gmap string string)
  : Prog (string + error) :=
  impl_ token _url opt.

Definition CallAPI (s : Signer) (token : option oauth.Credentials)
    (_url : string) (opt : gmap string string) : Prog (string + error) :=
  callAPI (callAPI_ s) token _url opt.

Definition main (os : OS) (s : Signer) (credPath : string) : Prog unit :=
  r ← ReadCredentials os credPath;
  match r with
  | inr err => log_Fatal ("Error reading credential, " +:+ Error err)
  | inl plurkOAuth =>
      '((accessToken, authorized, _), plurkOAuth) ← GetAccessToken s plurkOAuth;
      _ ← (if authorized : bool then
             match MarshalIndent plurkOAuth with
             | inr err => log_Fatal ("failed to store credential: " +:+ Error err)
             | inl bytes =>
                 _ ← emit (EvWriteFile credPath bytes);
                 match WriteFile os credPath bytes with
                 | Some err =>
                     log_Fatal ("failed to write credential: %v" +:+ Error err)
                 | None => mret ()
                 end
             end
           else mret ());
      result ← CallAPI s accessToken "/APP/Profile/getOwnProfile" ∅;
      match result with
      | inr err => log_Fatal ("failed: " +:+ Error err)
      | inl result => emit (EvStdout (result +:+ nl))
      end
  end.

End Program.

End Plurk.

(** ** Stub collaborators, for the examples *)

Module Stub.

(** A signer that answers every request for temporary credentials with
    [temp], every exchange with [access] and every HTTP call with [resp]. *)
Definition signer (temp access : oauth.Credentials + error)
    (resp : HTTPResponse + error) : Signer :=
  {| RequestTemporaryCredentials := λ _ _, temp;
     AuthorizationURL := λ c cred,
       oauth.ResourceOwnerAuthorizationURI c +:+ "?oauth_token=" +:+ oauth.Token cred;
     RequestToken := λ _ _ _, access;
     Get := λ _ _ _ _, resp;
     Post := λ _ _ _ _, resp;
     SignParam := λ _ _ _ _ param, param;
     PostForm := λ _ _, resp |}.

Definition creds (token secret : string) : oauth.Credentials :=
  {| oauth.Token := token; oauth.Secret := secret |}.

Definition response (status : Z) (body : string) : HTTPResponse :=
  {| StatusCode := status; RequestURL := "http://api.example/data";
     Body := body; BodyErr := None |}.

(** A file system with one file. *)
Definition os (path content : string) : OS :=
  {| ReadFile := λ p, if bool_decide (p = path) then inl content
                      else inr (IOErr ("open " +:+ p +:+ ": no such file or directory"));
     WriteFile := λ _ _, None |}.

(** A decoder for the JSON objects whose members are strings without
    escapes, written without white space; it stands for [encoding/json]
    in the examples. *)
Definition dquote : ascii := "034"%char.

Fixpoint readString (s : string) : option (string * string) :=
  match s with
  | EmptyString => None
  | String c rest =>
      if bool_decide (c = dquote) then Some (EmptyString, rest)
      else match readString rest with
           | Some (str, rest') => Some (String c str, rest')
           | None => None
           end
  end.

Definition readQuoted (s : string) : option (string * string) :=
  match s with
  | String c rest => if bool_decide (c = dquote) then readString rest else None
  | EmptyString => None
  end.

Fixpoint readMembers (fuel : nat) (s : string) (acc : gmap string string)
  : option (gmap string string) :=
  match fuel with
  | O => None
  | S fuel =>
      match readQuoted s with
      | Some (key, String ":" rest) =>
          match readQuoted rest with
          | Some (value, String "," rest') =>
              readMembers fuel rest' (<[key := value]> acc)
          | Some (value, String "}" EmptyString) => Some (<[key := value]> acc)
          | _ => None
          end
      | _ => None
      end
  end.

Definition decodeObject (body : string) (err : option error)
  : gmap string string + error :=
  match err with
  | Some e => inr e
  | None =>
      match body with
      | String "{" (String "}" EmptyString) => inl ∅
      | String "{" rest =>
          match readMembers (String.length rest) rest ∅ with
          | Some m => inl m
          | None => inr (JSONErr "invalid character in object")
          end
      | _ => inr (JSONErr "unexpected end of JSON input")
      end
  end.

Definition q (s : string) : string := String dquote (s +:+ String dquote "").

(** The body [{"id":"1","text":"hi"}]. *)
Definition validBody : string :=
  "{" +:+ q "id" +:+ ":" +:+ q "1" +:+ "," +:+ q "text" +:+ ":" +:+ q "hi" +:+ "}".


(** [encoding/json] at [oauth.Credentials] and at [PlurkCredentials], on
    configuration files of one line per field. *)
Definition lines (s : string) : list string :=
  let fix go (s cur : string) : list string :=
    match s with
    | EmptyString => [String.rev cur]
    | String c rest =>
        if bool_decide (c = "010"%char) then String.rev cur :: go rest EmptyString
        else go rest (String c cur)
    end in
  go s EmptyString.

Definition unmarshalCredentials (b : string) (old : oauth.Credentials)
  : oauth.Credentials + error :=
  match lines b with
  | [token; secret] => inl (creds token secret)
  | _ => inr (JSONErr "unexpected end of JSON input")
  end.

Definition unmarshalPlurk (b : string) : Plurk.PlurkCredentials + error :=
  match lines b with
  | [ct; cs; at_; as_] =>
      inl {| Plurk.ConsumerToken := ct; Plurk.ConsumerSecret := cs;
             Plurk.AccessToken := at_; Plurk.AccessSecret := as_ |}
  | _ => inr (JSONErr "unexpected end of JSON input")
  end.

Definition marshalPlurk (c : Plurk.PlurkCredentials) : string + error :=
  inl (Plurk.ConsumerToken c +:+ Plurk.nl +:+ Plurk.ConsumerSecret c +:+ Plurk.nl
         +:+ Plurk.AccessToken c +:+ Plurk.nl +:+ Plurk.AccessSecret c).

Definition request (path : string) (form : list (string * string))
    (cookies : list (string * string)) : Twitter.Request :=
  {| Twitter.Host := "localhost:8080"; Twitter.URLPath := path;
     Twitter.Form := list_to_map ((λ kv, (kv.1, [kv.2])) <$> form);
     Twitter.Cookies := cookies |}.

Definition world (entries : list (string * string)) : Twitter.World :=
  Twitter.setSecrets Twitter.initial (list_to_map entries).

End Stub.

(** * Properties *)

(** ** The credential store *)

Section Store.

Import Twitter.

Implicit Types (w : World) (c cred : oauth.Credentials) (T token : string).

Lemma getCredentials_None token w :
  getCredentials token w = None ↔ secrets w !! token = None.
Proof. unfold getCredentials. destruct (secrets w !! token); naive_solver. Qed.

Lemma getCredentials_Some token w c :
  getCredentials token w = Some c
  ↔ oauth.Token c = token ∧ secrets w !! token = Some (oauth.Secret c).
Proof.
  unfold getCredentials. destruct c as [t s]; simpl.
  destruct (secrets w !! token) as [x|]; split.
  - by intros [= <- <-].
  - by intros [<- [= <-]].
  - done.
  - by intros [_ [=]].
Qed.

Lemma get_put_eq c w : getCredentials (oauth.Token c) (putCredentials c w) = Some c.
Proof. apply getCredentials_Some. simpl. by rewrite lookup_insert_eq. Qed.

Lemma get_put_ne c T w :
  oauth.Token c ≠ T → getCredentials T (putCredentials c w) = getCredentials T w.
Proof. intros Hne. unfold getCredentials; simpl. by rewrite lookup_insert_ne. Qed.

Lemma get_delete_eq T w : getCredentials T (deleteCredentials T w) = None.
Proof. apply getCredentials_None. simpl. apply lookup_delete_eq. Qed.

Lemma get_delete_ne T T' w :
  T' ≠ T → getCredentials T (deleteCredentials T' w) = getCredentials T w.
Proof. intros Hne. unfold getCredentials; simpl. by rewrite lookup_delete_ne. Qed.

Lemma delete_absent T w : getCredentials T w = None → deleteCredentials T w = w.
Proof.
  intros Hnone. apply getCredentials_None in Hnone. destruct w as [oc sc m tr].
  unfold deleteCredentials, setSecrets; simpl in *. f_equal.
  by apply delete_id.
Qed.

Lemma get_applyOps_untouched T ops w :
  Forall (λ op, touches T op = false) ops →
  getCredentials T (applyOps ops w) = getCredentials T w.
Proof.
  unfold applyOps. intros Hops. revert w.
  induction Hops as [|op ops Hop _ IH]; intros w; simpl; [done|].
  rewrite IH. destruct op as [c|t|t]; simpl in *.
  - apply get_put_ne. by apply bool_decide_eq_false in Hop.
  - done.
  - apply get_delete_ne. by apply bool_decide_eq_false in Hop.
Qed.

(** C2.  Round trip of the credential store: after [put c], [get] of the
    token of [c] gives [c], and keeps giving it through every sequence of
    operations that neither deletes that token nor puts credentials with
    it; a second [put] with the same token makes [get] give the newer
    pair; after [delete T], [get T] finds nothing; [delete] of an absent
    token leaves the store as it is. *)
Theorem store_round_trip w c c' ops T :
  getCredentials (oauth.Token c) (putCredentials c w) = Some c
  ∧ (Forall (λ op, touches (oauth.Token c) op = false) ops →
     getCredentials (oauth.Token c) (applyOps ops (putCredentials c w)) = Some c)
  ∧ (oauth.Token c' = oauth.Token c →
     getCredentials (oauth.Token c) (putCredentials c' (putCredentials c w)) = Some c')
  ∧ getCredentials T (deleteCredentials T w) = None
  ∧ (getCredentials T w = None → deleteCredentials T w = w).
Proof.
  split_and!.
  - apply get_put_eq.
  - intros Hops. rewrite get_applyOps_untouched by done. apply get_put_eq.
  - intros <-. apply get_put_eq.
  - apply get_delete_eq.
  - apply delete_absent.
Qed.

Lemma store_round_trip_witness :
  let w := Stub.world [("t0", "s0")] in
  let c := Stub.creds "t1" "s1" in
  let c' := Stub.creds "t1" "other" in
  let ops := [OpPut (Stub.creds "t2" "s2"); OpGet "t1"; OpDelete "t0"] in
  Forall (λ op, touches (oauth.Token c) op = false) ops
  ∧ oauth.Token c' = oauth.Token c
  ∧ getCredentials "t9" w = None
  ∧ getCredentials "t1" (applyOps ops (putCredentials c w)) = Some c
  ∧ getCredentials "t1" (putCredentials c' (putCredentials c w)) = Some c'
  ∧ deleteCredentials "t9" w = w.
Proof.
  intros w c c' ops.
  assert (Hops : Forall (λ op, touches (oauth.Token c) op = false) ops)
    by (repeat constructor).
  assert (Habsent : getCredentials "t9" w = None) by reflexivity.
  destruct (store_round_trip w c c' ops "t9") as (_ & Hkeep & Hover & _ & Hdel).
  split_and!; [exact Hops|reflexivity|exact Habsent|exact (Hkeep Hops)
              |exact (Hover eq_refl)|exact (Hdel Habsent)].
Defined.

End Store.

(** ** The authorization flow of the server *)

Section Flow.

Import Twitter.

Implicit Types (w : World) (s : Signer) (r : Request) (T : string).

(** C5.  A begin whose request for temporary credentials fails upstream,
    at either entry point, answers with the error and leaves the store as
    it was: nothing is inserted, no cookie is set, and the one request sent
    is all that happened. *)
Theorem begin_failure_atomic (JSON : Type) s r w err :
  let callback := "http://" +:+ Host r +:+ "/callback" in
  (RequestTemporaryCredentials s (signinOAuthClient w) callback = inr err →
   serveSignin JSON s r w
     = (http_Error ("Error getting temp cred, " +:+ Error err) 500,
        emit (EvTemporaryCredentials (signinOAuthClient w) callback) w)
   ∧ secrets (snd (serveSignin JSON s r w)) = secrets w)
  ∧ (RequestTemporaryCredentials s (oauthClient w) callback = inr err →
     serveAuthorize JSON s r w
       = (http_Error ("Error getting temp cred, " +:+ Error err) 500,
          emit (EvTemporaryCredentials (oauthClient w) callback) w)
     ∧ secrets (snd (serveAuthorize JSON s r w)) = secrets w).
Proof.
  intros callback. split; intros Herr.
  - unfold serveSignin. simpl. fold callback. by rewrite Herr.
  - unfold serveAuthorize. simpl. fold callback. by rewrite Herr.
Qed.

Lemma begin_failure_atomic_witness :
  let s := Stub.signer (inr (UpstreamErr "401 Unauthorized"))
             (inl (Stub.creds "a1" "as1")) (inl (Stub.response 200 "")) in
  let r := Stub.request "/signin" [] [] in
  let w := Stub.world [("t0", "s0")] in
  fst (serveSignin unit s r w)
    = http_Error "Error getting temp cred, 401 Unauthorized" 500
  ∧ secrets (snd (serveSignin unit s r w)) = secrets w
  ∧ fst (serveAuthorize unit s r w)
    = http_Error "Error getting temp cred, 401 Unauthorized" 500
  ∧ secrets (snd (serveAuthorize unit s r w)) = secrets w.
Proof.
  intros s r w.
  destruct (begin_failure_atomic unit s r w (UpstreamErr "401 Unauthorized"))
    as [Hsignin Hauthorize].
  destruct (Hsignin eq_refl) as [Hs1 Hs2], (Hauthorize eq_refl) as [Ha1 Ha2].
  split_and!; [by rewrite Hs1|exact Hs2|by rewrite Ha1|exact Ha2].
Defined.

(** What a callback does, by the lookup and the exchange. *)
Lemma callback_unknown (JSON : Type) s r w :
  getCredentials (FormValue r "oauth_token") w = None →
  serveOAuthCallback JSON s r w = (http_Error "Unknown oauth_token." 500, w).
Proof. intros Hget. unfold serveOAuthCallback. by rewrite Hget. Qed.



Lemma callback_failure (JSON : Type) s r w tempCred err :
  getCredentials (FormValue r "oauth_token") w = Some tempCred →
  RequestToken s (oauthClient w) tempCred (FormValue r "oauth_verifier") = inr err →
  serveOAuthCallback JSON s r w
  = (http_Error ("Error getting request token, " +:+ Error err) 500,
     emit (EvToken (oauthClient w) tempCred (FormValue r "oauth_verifier"))
       (deleteCredentials (FormValue r "oauth_token") w)).
Proof.
  intros Hget Herr. unfold serveOAuthCallback. rewrite Hget. simpl.
  apply getCredentials_Some in Hget as [-> _]. by rewrite Herr.
Qed.


(** The data handlers leave the package-level variables alone. *)
Lemma apiGet_world (JSON : Type) s Decode cred urlStr form w :
  snd (apiGet JSON s Decode cred urlStr form w)
  = emit (EvGet (oauthClient w) cred urlStr form) w.
Proof. unfold apiGet. simpl. by destruct (Get _ _ _ _ _). Qed.

Lemma apiPost_world (JSON : Type) s Decode cred urlStr form w :
  snd (apiPost JSON s Decode cred urlStr form w)
  = emit (EvPost (oauthClient w) cred urlStr form) w.
Proof. unfold apiPost. simpl. by destruct (Post _ _ _ _ _). Qed.

Lemma reads_emit e w :
  isRead e = false → reads (trace (emit e w)) = reads (trace w).
Proof.
  intros He. unfold reads. simpl. rewrite filter_app, length_app.
  destruct e; try discriminate; simpl; lia.
Qed.

(** One request served: the clients are not assigned, no file is read,
    and a token in the store afterwards was there before or was issued
    while the request was served. *)
Lemma serve1_frame (JSON : Type) DS DM w (x : Served) :
  let w' := serve1 JSON DS DM w x in
  oauthClient w' = oauthClient w
  ∧ signinOAuthClient w' = signinOAuthClient w
  ∧ reads (trace w') = reads (trace w)
  ∧ ∀ T, is_Some (secrets w' !! T) → is_Some (secrets w !! T) ∨ T ∈ issued x w.
Proof.
  destruct x as [[s now] r]. unfold serve1, route, issued. simpl.
  repeat case_bool_decide; simplify_eq/=;
    try match goal with H : URLPath r = _ |- _ => rewrite H in *; clear H end;
    try done.
  all: unfold ServeHTTP, serveTimeline, serveMessages, serveFollow, serveHome,
         serveSignin, serveAuthorize, serveLogout, serveOAuthCallback.
  all: repeat (case_match; simplify_eq/=).
  all: repeat match goal with
         | H : apiGet ?J ?s ?D ?c ?u ?f ?w1 = (_, ?w0) |- _ =>
             let E := fresh in
             pose proof (apiGet_world J s D c u f w1) as E; rewrite H in E;
             simpl in E; subst w0; clear H
         | H : apiPost ?J ?s ?D ?c ?u ?f ?w1 = (_, ?w0) |- _ =>
             let E := fresh in
             pose proof (apiPost_world J s D c u f w1) as E; rewrite H in E;
             simpl in E; subst w0; clear H
         end.
  all: split_and!; try done; try (by apply reads_emit); try (by left).
  all: intros T; simpl.
  all: try (rewrite lookup_insert; case_decide; simplify_eq;
            [intros _; right; set_solver|]).
  all: try (intros [v Hv]; apply lookup_delete_Some in Hv as [_ Hv]).
  all: eauto.
Qed.

Lemma serve_frame (JSON : Type) DS DM xs w :
  let w' := serve JSON DS DM xs w in
  oauthClient w' = oauthClient w
  ∧ signinOAuthClient w' = signinOAuthClient w
  ∧ reads (trace w') = reads (trace w)
  ∧ ∀ T, is_Some (secrets w' !! T)
         → is_Some (secrets w !! T) ∨ T ∈ issuedAll JSON DS DM xs w.
Proof.
  unfold serve. revert w. induction xs as [|x xs IH]; intros w; simpl.
  { split_and!; try done. by left. }
  destruct (IH (serve1 JSON DS DM w x)) as (Hc & Hsc & Hrd & Hsec).
  destruct (serve1_frame JSON DS DM w x) as (Hc1 & Hsc1 & Hrd1 & Hsec1).
  split_and!; [congruence..|].
  intros T HT. destruct (Hsec T HT) as [Hmid|Hin].
  - destruct (Hsec1 T Hmid) as [?|?]; [by left|].
    right. apply elem_of_app. by left.
  - right. apply elem_of_app. by right.
Qed.


(** C3, amended.  A callback whose exchange fails upstream answers with
    the error, and the temporary credentials are gone from the store: they
    are deleted before the exchange.  The other entries are as before, and
    a retry with the same token is answered "Unknown oauth_token.". *)
Theorem complete_failure_evicts (JSON : Type) s r w tempCred err s' r' :
  getCredentials (FormValue r "oauth_token") w = Some tempCred →
  RequestToken s (oauthClient w) tempCred (FormValue r "oauth_verifier") = inr err →
  let w' := snd (serveOAuthCallback JSON s r w) in
  fst (serveOAuthCallback JSON s r w)
    = http_Error ("Error getting request token, " +:+ Error err) 500
  ∧ getCredentials (FormValue r "oauth_token") w' = None
  ∧ (∀ T, T ≠ FormValue r "oauth_token" → getCredentials T w' = getCredentials T w)
  ∧ (FormValue r' "oauth_token" = FormValue r "oauth_token" →
     fst (serveOAuthCallback JSON s' r' w') = http_Error "Unknown oauth_token." 500).
Proof.
  intros Hget Herr w'. unfold w'.
  rewrite (callback_failure JSON s r w tempCred err Hget Herr). simpl.
  split_and!.
  - done.
  - apply get_delete_eq.
  - intros T HT. by apply get_delete_ne.
  - intros Hsame. rewrite callback_unknown; [done|].
    rewrite Hsame. apply get_delete_eq.
Qed.

(** C4, amended.  A logout expires the [auth] cookie and redirects to
    the home page; it leaves the store as it is, so the access credentials
    of the session are still found by a lookup.  A later request that
    comes without the cookie is not logged in. *)
Theorem logout_expires_cookie_only (JSON : Type) now r w :
  serveLogout JSON now r w
  = (http_Redirect
       [ {| Name := "auth"; Path := "/"; HttpOnly := true; Value := "";
            MaxAge := -1; Expires := Some (now - 3600)%Z |} ] "/" 302, w)
  ∧ (∀ T, getCredentials T (snd (serveLogout JSON now r w)) = getCredentials T w)
  ∧ (∀ h s r', Cookie_ r' "auth" = None → optional JSON h = false →
       ServeHTTP JSON h s r' (snd (serveLogout JSON now r w))
       = (http_Error "Not logged in." 403, w)).
Proof.
  split_and!; [done..|].
  intros h s r' Hcookie Hopt. unfold ServeHTTP. simpl.
  by rewrite Hcookie, Hopt.
Qed.



Lemma complete_failure_evicts_witness :
  let s := Stub.signer (inl (Stub.creds "t1" "s1")) (inr (UpstreamErr "401 Unauthorized"))
             (inl (Stub.response 200 "")) in
  let r := Stub.request "/callback"
             [("oauth_token", "t1"); ("oauth_verifier", "1234")] [] in
  let w := Stub.world [("t1", "s1"); ("a0", "as0")] in
  let w' := snd (serveOAuthCallback unit s r w) in
  getCredentials "t1" w = Some (Stub.creds "t1" "s1")
  ∧ fst (serveOAuthCallback unit s r w)
    = http_Error "Error getting request token, 401 Unauthorized" 500
  ∧ getCredentials "t1" w' = None
  ∧ getCredentials "a0" w' = getCredentials "a0" w
  ∧ fst (serveOAuthCallback unit s r w') = http_Error "Unknown oauth_token." 500.
Proof.
  intros s r w w'.
  assert (Hget : getCredentials (FormValue r "oauth_token") w
                 = Some (Stub.creds "t1" "s1")) by reflexivity.
  destruct (complete_failure_evicts unit s r w (Stub.creds "t1" "s1")
              (UpstreamErr "401 Unauthorized") s r Hget eq_refl)
    as (Hresp & Hgone & Hothers & Hretry).
  split_and!; [exact Hget|exact Hresp|exact Hgone| |exact (Hretry eq_refl)].
  apply Hothers. discriminate.
Defined.

(** C3 as stated fails: the exchange fails upstream, the error is
    answered, and the temporary credentials of [t1] are no longer found. *)
Lemma complete_failure_keeps_pending_counterexample :
  let s := Stub.signer (inl (Stub.creds "t1" "s1")) (inr (UpstreamErr "401 Unauthorized"))
             (inl (Stub.response 200 "")) in
  let r := Stub.request "/callback"
             [("oauth_token", "t1"); ("oauth_verifier", "1234")] [] in
  let w := Stub.world [("t1", "s1")] in
  let w' := snd (serveOAuthCallback unit s r w) in
  getCredentials "t1" w = Some (Stub.creds "t1" "s1")
  ∧ fst (serveOAuthCallback unit s r w)
    = http_Error "Error getting request token, 401 Unauthorized" 500
  ∧ ¬ is_Some (getCredentials "t1" w')
  ∧ fst (serveOAuthCallback unit s r w') = http_Error "Unknown oauth_token." 500.
Proof.
  cbv zeta. split_and!; try reflexivity.
  vm_compute. by intros [? [=]].
Qed.

Lemma logout_expires_cookie_only_witness :
  let JSON := gmap string string in
  let w := Stub.world [("a1", "as1")] in
  let r := Stub.request "/logout" [] [("auth", "a1")] in
  let r' := Stub.request "/timeline" [] [] in
  let h := {| handler := serveTimeline JSON Stub.decodeObject; optional := false |} in
  let s := Stub.signer (inl (Stub.creds "t1" "s1")) (inl (Stub.creds "a1" "as1"))
             (inl (Stub.response 200 Stub.validBody)) in
  Cookie_ r' "auth" = None
  ∧ getCredentials "a1" (snd (serveLogout JSON 7200 r w)) = getCredentials "a1" w
  ∧ ServeHTTP JSON h s r' (snd (serveLogout JSON 7200 r w))
    = (http_Error "Not logged in." 403, w).
Proof.
  intros JSON w r r' h s.
  destruct (logout_expires_cookie_only JSON 7200 r w) as (_ & Hstore & Hnext).
  split_and!; [reflexivity|exact (Hstore "a1")|exact (Hnext h s r' eq_refl eq_refl)].
Defined.

(** C4 as stated fails: the session of the request holds the access
    credentials [a1]; after the logout they are still found in the store,
    and a request that still carries the cookie value is served. *)
Lemma logout_discards_credentials_counterexample :
  let JSON := gmap string string in
  let w := Stub.world [("a1", "as1")] in
  let r := Stub.request "/logout" [] [("auth", "a1")] in
  let w' := snd (serveLogout JSON 7200 r w) in
  let s := Stub.signer (inl (Stub.creds "t1" "s1")) (inl (Stub.creds "a2" "as2"))
             (inl (Stub.response 200 Stub.validBody)) in
  let h := {| handler := serveHome JSON; optional := false |} in
  Cookie_ r "auth" = Some "a1"
  ∧ getCredentials "a1" w = Some (Stub.creds "a1" "as1")
  ∧ getCredentials "a1" w' = Some (Stub.creds "a1" "as1")
  ∧ fst (ServeHTTP JSON h s (Stub.request "/" [] [("auth", "a1")]) w')
    = respond homeTmpl None.
Proof. cbv zeta. by split_and!; vm_compute. Qed.

End Flow.

(** ** The signed API client *)

Section Client.

Implicit Types (s : Signer) (resp : HTTPResponse).

(** The decimal form of a status has no comma, so the message of
    [decodeResponse] splits in one way only. *)
Lemma pretty_N_go_comma (x : N) (acc : string) :
  ","%char ∈ String.list_ascii_of_string (pretty_N_go x acc) →
  ","%char ∈ String.list_ascii_of_string acc.
Proof.
  revert acc. induction (N.lt_wf_0 x) as [x _ IH]; intros acc.
  assert (x = 0 ∨ 0 < x)%N as [->|Hpos] by lia.
  - by rewrite pretty_N_go_0.
  - rewrite pretty_N_go_step by done. intros Hin.
    apply IH in Hin; [|by apply N.div_lt].
    simpl in Hin. apply elem_of_cons in Hin as [Hc|Hin]; [|done].
    exfalso. revert Hc. unfold pretty_N_char. by repeat case_match.
Qed.

Lemma pretty_Z_comma (z : Z) : ","%char ∉ String.list_ascii_of_string (pretty z).
Proof.
  assert (Hpos : ∀ p : positive, ","%char ∉ String.list_ascii_of_string (pretty p)).
  { intros p Hin. unfold pretty, pretty_positive, pretty, pretty_N in Hin.
    case_decide; [done|]. apply pretty_N_go_comma in Hin.
    by apply elem_of_nil in Hin. }
  destruct z as [|p|p]; unfold pretty, pretty_Z.
  - simpl. rewrite list_elem_of_singleton. discriminate.
  - apply Hpos.
  - simpl. intros Hin. apply elem_of_cons in Hin as [Hc|Hin]; [discriminate|].
    by apply Hpos in Hin.
Qed.

Lemma split_at_comma (a1 a2 b1 b2 : string) :
  ","%char ∉ String.list_ascii_of_string a1 →
  ","%char ∉ String.list_ascii_of_string a2 →
  a1 +:+ String "," b1 = a2 +:+ String "," b2 →
  a1 = a2 ∧ b1 = b2.
Proof.
  revert a2. induction a1 as [|c a1 IH]; intros [|c' a2] H1 H2 Heq;
    simplify_eq/=.
  - done.
  - destruct H2. by left.
  - destruct H1. by left.
  - destruct (IH a2) as [-> ->]; [|by intros ?; apply H2; right|done|done].
    by intros ?; apply H1; right.
Qed.

Lemma decodeResponse_not_200 (JSON : Type) Decode resp :
  StatusCode resp ≠ 200%Z →
  Twitter.decodeResponse JSON Decode resp
  = inr (Errorf ("Get " +:+ RequestURL resp +:+ " returned status "
                   +:+ pretty (StatusCode resp) +:+ ", " +:+ Body resp)).
Proof.
  intros Hstatus. unfold Twitter.decodeResponse.
  by rewrite bool_decide_eq_true_2.
Qed.


(** The outbound requests of a call of [callAPI_] that gets a response. *)
Lemma callAPI__response s token _url (opt : gmap string string)
    (pw : Plurk.World) resp :
  let apiURL := Plurk.baseURL +:+ _url in
  let param := SignParam s (Plurk.oauthClient pw) token "POST" apiURL
                 ((λ v, [v]) <$> opt) in
  PostForm s apiURL param = inl resp →
  fst (Plurk.callAPI_ s token _url opt pw)
  = Returned (match BodyErr resp with
              | Some err => inr err
              | None => if bool_decide (StatusCode resp ≠ 200%Z)
                        then inr (Errorf (Body resp)) else inl (Body resp)
              end)
  ∧ requests (Plurk.trace (snd (Plurk.callAPI_ s token _url opt pw)))
    = requests (Plurk.trace pw) ++ [EvPostForm apiURL param].
Proof.
  intros apiURL param Hresp. unfold Plurk.callAPI_.
  unfold mbind, Plurk.Prog_bind, mret, Plurk.Prog_ret, Plurk.getClient, Plurk.emit.
  simpl. fold apiURL. fold param. rewrite Hresp.
  destruct (BodyErr resp) as [err|]; simpl.
  - unfold requests. by rewrite !filter_app, app_nil_r.
  - case_bool_decide; simpl; unfold requests;
      by rewrite !filter_app, ?app_nil_r.
Qed.

(** C6, amended.  A data request whose response has a status other than
    200 gives an error, with no decoding and after one request only.  In
    the server the message of the error carries the status in decimal and
    the bytes of the body, and for one URL it determines both.  In the
    command line client the message of the error is the body alone, when
    the body was read to its end. *)
Theorem non_200_error (JSON : Type) s Decode cred urlStr form (w : Twitter.World)
    token _url (opt : gmap string string) (pw : Plurk.World) resp :
  StatusCode resp ≠ 200%Z →
  let msg := "Get " +:+ RequestURL resp +:+ " returned status "
               +:+ pretty (StatusCode resp) +:+ ", " +:+ Body resp in
  Twitter.decodeResponse JSON Decode resp = inr (Errorf msg)
  ∧ (Get s (Twitter.oauthClient w) cred urlStr form = inl resp →
     Twitter.apiGet JSON s Decode cred urlStr form w
     = (inr (Errorf msg),
        Twitter.emit (EvGet (Twitter.oauthClient w) cred urlStr form) w))
  ∧ (Post s (Twitter.oauthClient w) cred urlStr form = inl resp →
     Twitter.apiPost JSON s Decode cred urlStr form w
     = (inr (Errorf msg),
        Twitter.emit (EvPost (Twitter.oauthClient w) cred urlStr form) w))
  ∧ (∀ Decode' resp',
       StatusCode resp' ≠ 200%Z → RequestURL resp' = RequestURL resp →
       Twitter.decodeResponse JSON Decode' resp'
         = Twitter.decodeResponse JSON Decode resp →
       StatusCode resp' = StatusCode resp ∧ Body resp' = Body resp)
  ∧ (let apiURL := Plurk.baseURL +:+ _url in
     let param := SignParam s (Plurk.oauthClient pw) token "POST" apiURL
                    ((λ v, [v]) <$> opt) in
     PostForm s apiURL param = inl resp → BodyErr resp = None →
     fst (Plurk.CallAPI s token _url opt pw) = Returned (inr (Errorf (Body resp)))
     ∧ requests (Plurk.trace (snd (Plurk.CallAPI s token _url opt pw)))
       = requests (Plurk.trace pw) ++ [EvPostForm apiURL param]).
Proof.
  intros Hstatus msg. split_and!.
  - by apply decodeResponse_not_200.
  - intros Hresp. unfold Twitter.apiGet. simpl. rewrite Hresp.
    by rewrite decodeResponse_not_200.
  - intros Hresp. unfold Twitter.apiPost. simpl. rewrite Hresp.
    by rewrite decodeResponse_not_200.
  - intros Decode' resp' Hstatus' Hurl.
    rewrite !decodeResponse_not_200 by done. rewrite Hurl. intros [= Heq].
    do 3 apply String.app_inj in Heq.
    apply split_at_comma in Heq as [Hst Hbody]; [|apply pretty_Z_comma..].
    split; [by apply (inj pretty)|].
    by apply (String.app_inj " ") in Hbody.
  - intros apiURL param Hresp Hread.
    destruct (callAPI__response s token _url opt pw resp Hresp) as [Hout Htrace].
    rewrite Hread, bool_decide_eq_true_2 in Hout by done. done.
Qed.

Lemma non_200_error_witness :
  let JSON := gmap string string in
  let resp := Stub.response 500 "boom" in
  let s := Stub.signer (inl (Stub.creds "t1" "s1")) (inl (Stub.creds "a1" "as1"))
             (inl resp) in
  let cred := Some (Stub.creds "a1" "as1") in
  StatusCode resp ≠ 200%Z
  ∧ fst (Twitter.apiGet JSON s Stub.decodeObject cred
           "http://api.example/data" ∅ Twitter.initial)
    = inr (Errorf "Get http://api.example/data returned status 500, boom")
  ∧ requests (Twitter.trace
                (snd (Twitter.apiGet JSON s Stub.decodeObject cred
                        "http://api.example/data" ∅ Twitter.initial)))
    = [EvGet (Twitter.oauthClient Twitter.initial) cred "http://api.example/data" ∅]
  ∧ fst (Plurk.CallAPI s cred "/APP/Profile/getOwnProfile" ∅ (Plurk.initial []))
    = Returned (inr (Errorf "boom")).
Proof.
  intros JSON resp s cred.
  assert (Hstatus : StatusCode resp ≠ 200%Z) by discriminate.
  destruct (non_200_error JSON s Stub.decodeObject cred "http://api.example/data" ∅
              Twitter.initial cred "/APP/Profile/getOwnProfile" ∅ (Plurk.initial [])
              resp Hstatus) as (_ & Hget & _ & _ & Hcli).
  split_and!; [exact Hstatus| | |exact (proj1 (Hcli eq_refl eq_refl))].
  - by rewrite (Hget eq_refl).
  - by rewrite (Hget eq_refl).
Defined.

(** C6 as stated fails in the command line client: the responses of
    status 500 and of status 404 with the same body give the same error,
    whose message is the body and carries no status. *)
Lemma non_200_error_carries_status_counterexample :
  let s status := Stub.signer (inl (Stub.creds "t1" "s1")) (inl (Stub.creds "a1" "as1"))
                    (inl (Stub.response status "boom")) in
  let cred := Some (Stub.creds "a1" "as1") in
  fst (Plurk.CallAPI (s 500%Z) cred "/APP/Profile/getOwnProfile" ∅ (Plurk.initial []))
    = Returned (inr (Errorf "boom"))
  ∧ fst (Plurk.CallAPI (s 404%Z) cred "/APP/Profile/getOwnProfile" ∅ (Plurk.initial []))
    = Returned (inr (Errorf "boom"))
  ∧ Error (Errorf "boom") = "boom".
Proof. cbv zeta. by split_and!. Qed.



End Client.

(** ** The command line client *)

Section CLI.

Import Plurk.

Implicit Types (s : Signer) (pw : World) (cred : PlurkCredentials).

Local Arguments doAuth : simpl never.
Local Arguments GetAccessToken : simpl never.
Local Arguments callAPI_ : simpl never.

Ltac prog :=
  unfold mbind, Prog_bind, mret, Prog_ret, getClient, setClient, emit,
    fmt_Scan, log_Fatal; simpl.

(** [doAuth], by the answer to the exchange. *)
Lemma doAuth_cases s requestToken pw :
  let c := oauthClient pw in
  let pinCode := hd "" (stdin pw) in
  let out := [EvStdout ("Open the following URL and authorize it: "
                          +:+ AuthorizationURL s c requestToken +:+ nl);
              EvStdout "Input the PIN code: ";
              EvToken c requestToken pinCode] in
  doAuth s requestToken pw
  = (match RequestToken s c requestToken pinCode with
     | inr err => Fatal ("failed to request token:" +:+ Error err)
     | inl accessToken => Returned (accessToken, None)
     end,
     {| oauthClient := c; stdin := tl (stdin pw); trace := trace pw ++ out |}).
Proof.
  unfold doAuth. prog. destruct pw as [c [|word rest] tr]; simpl.
  all: destruct (RequestToken s c requestToken _); simpl.
  all: by rewrite <-!app_assoc.
Qed.

Lemma GetAccessToken_stored s cred pw :
  AccessToken cred ≠ "" → AccessSecret cred ≠ "" →
  GetAccessToken s cred pw
  = (Returned ((Some {| oauth.Token := AccessToken cred;
                        oauth.Secret := AccessSecret cred |}, false, None), cred),
     {| oauthClient := oauth.setCredentials (oauthClient pw) (consumer cred);
        stdin := stdin pw; trace := trace pw |}).
Proof.
  intros Htoken Hsecret. unfold GetAccessToken. prog.
  by rewrite !bool_decide_eq_true_2.
Qed.

Lemma GetAccessToken_handshake s cred pw :
  AccessToken cred = "" ∨ AccessSecret cred = "" →
  let c := oauth.setCredentials (oauthClient pw) (consumer cred) in
  let pinCode := hd "" (stdin pw) in
  GetAccessToken s cred pw
  = match RequestTemporaryCredentials s c "" with
    | inr err =>
        (Returned ((None, false, Some err), cred),
         {| oauthClient := c; stdin := stdin pw;
            trace := trace pw ++
              [EvTemporaryCredentials c "";
               EvLog ("failed to request temporary credentials: " +:+ Error err)] |})
    | inl requestToken =>
        (match RequestToken s c requestToken pinCode with
         | inr err => Fatal ("failed to request token:" +:+ Error err)
         | inl token => Returned ((Some token, true, None), withAccess cred token)
         end,
         {| oauthClient := c; stdin := tl (stdin pw);
            trace := trace pw ++
              [EvTemporaryCredentials c "";
               EvStdout ("Open the following URL and authorize it: "
                           +:+ AuthorizationURL s c requestToken +:+ nl);
               EvStdout "Input the PIN code: ";
               EvToken c requestToken pinCode] |})
    end.
Proof.
  intros Habsent c pinCode. unfold GetAccessToken. prog.
  assert (bool_decide (AccessToken cred ≠ "") && bool_decide (AccessSecret cred ≠ "")
          = false) as ->.
  { apply andb_false_iff.
    destruct Habsent as [H|H]; [left|right]; by rewrite bool_decide_eq_false_2, ?H by naive_solver. }
  fold (consumer cred). fold c. cbn [oauthClient].
  destruct (RequestTemporaryCredentials s c "") as [requestToken|err]; simpl.
  - prog. rewrite doAuth_cases. simpl. fold pinCode.
    destruct (RequestToken s c requestToken pinCode) as [token|err]; simpl.
    + unfold withAccess. by rewrite <-!app_assoc.
    + by rewrite <-!app_assoc.
  - by rewrite <-!app_assoc.
Qed.

(** Readings of a trace in two parts. *)
Lemma reads_app (t1 t2 : list Event) : reads (t1 ++ t2) = reads t1 + reads t2.
Proof. unfold reads. by rewrite filter_app, length_app. Qed.

Lemma written_app (t1 t2 : list Event) :
  written (t1 ++ t2) = written t1 ++ written t2.
Proof. apply omap_app. Qed.

Lemma handshake_app (t1 t2 : list Event) :
  handshake (t1 ++ t2) = handshake t1 ++ handshake t2.
Proof. apply filter_app. Qed.

Lemma quiet_app (t1 t2 : list Event) : quiet t1 → quiet t2 → quiet (t1 ++ t2).
Proof.
  intros (Hr1 & Hw1 & Hh1) (Hr2 & Hw2 & Hh2). unfold quiet.
  by rewrite reads_app, written_app, handshake_app, Hr1, Hr2, Hw1, Hw2, Hh1, Hh2.
Qed.

(** A data request assigns no variable and touches neither the files nor
    the handshake. *)
Lemma CallAPI_frame s token _url (opt : gmap string string) pw :
  ∃ evs, quiet evs
         ∧ snd (CallAPI s token _url opt pw)
           = {| oauthClient := oauthClient pw; stdin := stdin pw;
                trace := trace pw ++ evs |}.
Proof.
  unfold CallAPI, callAPI, callAPI_. prog.
  destruct (PostForm s _ _) as [res|err]; simpl.
  - destruct (BodyErr res) as [err|]; simpl; [|case_bool_decide; simpl].
    all: rewrite <-?app_assoc; simpl; eexists; split; [|reflexivity]; done.
  - rewrite <-?app_assoc; simpl; eexists; split; [|reflexivity]; done.
Qed.

(** A run of [main] on a configuration that is read and decoded, by what
    [GetAccessToken] does: it ends where [GetAccessToken] leaves the
    process, or goes on with the write of the configuration, when
    authorized, and a stretch that is quiet. *)
Lemma main_run U M os s credPath input b cred :
  ReadFile os credPath = inl b → U b = inl cred →
  let w1 := {| oauthClient := oauthClient (initial input); stdin := input;
               trace := [EvReadFile credPath] |} in
  match GetAccessToken s cred w1 with
  | (Fatal msg, w2) => main U M os s credPath (initial input) = (Fatal msg, w2)
  | (Returned ((_, authorized, _), cred'), w2) =>
      ∃ evs, quiet evs
        ∧ oauthClient (snd (main U M os s credPath (initial input))) = oauthClient w2
        ∧ trace (snd (main U M os s credPath (initial input)))
          = trace w2
            ++ (if authorized : bool then
                  match M cred' with
                  | inl bytes => [EvWriteFile credPath bytes]
                  | inr _ => []
                  end
                else [])
            ++ evs
  end.
Proof.
  intros Hfile Hjson w1. subst w1. unfold main, ReadCredentials. prog.
  rewrite Hfile, Hjson. simpl.
  destruct (GetAccessToken s cred _) as [[[[[token authorized] err] cred']|msg] w2];
    simpl; [|done].
  assert (Hq0 : quiet []) by done.
  assert (Hq1 : ∀ evs result, quiet evs → quiet (evs ++ [EvStdout (result +:+ nl)])).
  { intros evs result Hq. by apply quiet_app. }
  destruct authorized; simpl.
  - destruct (M cred') as [bytes|merr]; simpl.
    + destruct (WriteFile os credPath bytes) as [werr|]; simpl.
      * by exists [].
      * match goal with
        | |- context [CallAPI s token ?u ?o ?w] =>
            destruct (CallAPI_frame s token u o w) as (evs & Hquiet & Hw);
            destruct (CallAPI s token u o w) as [[[result|cerr]|msg] w3] eqn:Hcall
        end; simpl in *; subst w3; simpl.
        -- exists (evs ++ [EvStdout (result +:+ nl)]).
           split; [by apply Hq1|]. by rewrite <-!app_assoc.
        -- exists evs. by rewrite <-!app_assoc.
        -- exists evs. by rewrite <-!app_assoc.
    + exists []. by rewrite app_nil_r.
  - match goal with
    | |- context [CallAPI s token ?u ?o ?w] =>
        destruct (CallAPI_frame s token u o w) as (evs & Hquiet & Hw);
        destruct (CallAPI s token u o w) as [[[result|cerr]|msg] w3] eqn:Hcall
    end; simpl in *; subst w3; simpl.
    + exists (evs ++ [EvStdout (result +:+ nl)]).
      split; [by apply Hq1|]. by rewrite <-!app_assoc.
    + by exists evs.
    + by exists evs.
Qed.

(** C10.  [doAuth] never returns an error: a failed exchange ends the
    process in [log.Fatal].  So [GetAccessToken] returns an error only
    from the request for temporary credentials, before any exchange, and
    a failed exchange ends [GetAccessToken] in [log.Fatal] too. *)
Theorem doAuth_never_returns_error s requestToken cred pw :
  let c := oauth.setCredentials (oauthClient pw) (consumer cred) in
  (∀ token err, fst (doAuth s requestToken pw) ≠ Returned (token, Some err))
  ∧ (∀ err,
       RequestToken s (oauthClient pw) requestToken (hd "" (stdin pw)) = inr err →
       fst (doAuth s requestToken pw)
       = Fatal ("failed to request token:" +:+ Error err))
  ∧ (∀ res authorized err cred',
       fst (GetAccessToken s cred pw) = Returned ((res, authorized, Some err), cred') →
       RequestTemporaryCredentials s c "" = inr err
       ∧ handshake (trace (snd (GetAccessToken s cred pw)))
         = handshake (trace pw) ++ [EvTemporaryCredentials c ""])
  ∧ (∀ temp err,
       AccessToken cred = "" ∨ AccessSecret cred = "" →
       RequestTemporaryCredentials s c "" = inl temp →
       RequestToken s c temp (hd "" (stdin pw)) = inr err →
       fst (GetAccessToken s cred pw)
       = Fatal ("failed to request token:" +:+ Error err)).
Proof.
  intros c. split_and!.
  - intros token err. rewrite doAuth_cases. simpl.
    by destruct (RequestToken _ _ _ _).
  - intros err Herr. rewrite doAuth_cases. simpl. by rewrite Herr.
  - intros res authorized err cred'.
    destruct (decide (AccessToken cred = "")) as [Ht|Ht];
      [|destruct (decide (AccessSecret cred = "")) as [Hs|Hs]].
    3: by rewrite GetAccessToken_stored.
    all: rewrite GetAccessToken_handshake by auto; fold c.
    all: destruct (RequestTemporaryCredentials s c "") as [temp|err']; simpl;
           [by destruct (RequestToken _ _ _ _)|].
    all: intros [= <- <- <- <-]; split; [done|].
    all: by rewrite handshake_app.
  - intros temp err Habsent Htemp Herr.
    rewrite GetAccessToken_handshake by done. fold c. rewrite Htemp. simpl.
    by rewrite Herr.
Qed.

Lemma doAuth_never_returns_error_witness :
  let s := Stub.signer (inl (Stub.creds "t1" "s1")) (inr (UpstreamErr "401 Unauthorized"))
             (inl (Stub.response 200 "")) in
  let cred := {| ConsumerToken := "ck"; ConsumerSecret := "cs";
                 AccessToken := ""; AccessSecret := "" |} in
  fst (doAuth s (Stub.creds "t1" "s1") (initial ["1234"]))
    = Fatal "failed to request token:401 Unauthorized"
  ∧ fst (GetAccessToken s cred (initial ["1234"]))
    = Fatal "failed to request token:401 Unauthorized".
Proof.
  intros s cred.
  destruct (doAuth_never_returns_error s (Stub.creds "t1" "s1") cred
              (initial ["1234"])) as (_ & HdoAuth & _ & Hget).
  split.
  - exact (HdoAuth (UpstreamErr "401 Unauthorized") eq_refl).
  - exact (Hget (Stub.creds "t1" "s1") (UpstreamErr "401 Unauthorized")
             (or_introl eq_refl) eq_refl eq_refl).
Defined.

(** C9.  When the configuration holds a non-empty access token and
    secret, [GetAccessToken] returns them with [authorized = false] and
    without any call of the handshake, and [main] writes no file.  When
    one of them is empty and the handshake succeeds, [GetAccessToken]
    returns the access credentials obtained with [authorized = true], and
    [main] writes the configuration with them to the configuration file. *)
Theorem access_credentials_persistence U M os s credPath input b cred :
  ReadFile os credPath = inl b → U b = inl cred →
  let c := oauth.setCredentials (oauthClient (initial input)) (consumer cred) in
  let final := snd (main U M os s credPath (initial input)) in
  (AccessToken cred ≠ "" → AccessSecret cred ≠ "" →
   (∀ pw, fst (GetAccessToken s cred pw)
          = Returned ((Some {| oauth.Token := AccessToken cred;
                               oauth.Secret := AccessSecret cred |}, false, None),
                      cred)
          ∧ trace (snd (GetAccessToken s cred pw)) = trace pw)
   ∧ handshake (trace final) = []
   ∧ written (trace final) = [])
  ∧ (AccessToken cred = "" ∨ AccessSecret cred = "" →
     ∀ requestToken token bytes,
       RequestTemporaryCredentials s c "" = inl requestToken →
       RequestToken s c requestToken (hd "" input) = inl token →
       M (withAccess cred token) = inl bytes →
       (∀ pw, oauthClient pw = oauthClient (initial input) → stdin pw = input →
              fst (GetAccessToken s cred pw)
              = Returned ((Some token, true, None), withAccess cred token))
       ∧ handshake (trace final)
         = [EvTemporaryCredentials c ""; EvToken c requestToken (hd "" input)]
       ∧ written (trace final) = [(credPath, bytes)]).
Proof.
  intros Hfile Hjson c final.
  pose proof (main_run U M os s credPath input b cred Hfile Hjson) as Hrun.
  cbv zeta in Hrun. split.
  - intros Htoken Hsecret. split.
    { intros pw. by rewrite GetAccessToken_stored. }
    rewrite GetAccessToken_stored in Hrun by done.
    destruct Hrun as (evs & (_ & Hw & Hh) & _ & Htrace).
    unfold final. rewrite Htrace.
    by rewrite !handshake_app, !written_app, Hw, Hh.
  - intros Habsent requestToken token bytes Htemp Hexch Hbytes. split.
    { intros pw Hclient Hstdin. rewrite GetAccessToken_handshake by done.
      rewrite Hclient, Hstdin. fold c. by rewrite Htemp, Hexch. }
    rewrite GetAccessToken_handshake in Hrun by done.
    cbn [oauthClient stdin trace] in Hrun. fold c in Hrun.
    rewrite Htemp, Hexch, Hbytes in Hrun.
    destruct Hrun as (evs & (_ & Hw & Hh) & _ & Htrace).
    unfold final. rewrite Htrace.
    by rewrite !handshake_app, !written_app, Hw, Hh.
Qed.

Lemma access_credentials_persistence_witness :
  let stored := "ck" +:+ nl +:+ "cs" +:+ nl +:+ "at" +:+ nl +:+ "as" in
  let fresh := "ck" +:+ nl +:+ "cs" +:+ nl +:+ "" +:+ nl +:+ "" in
  let renewed := "ck" +:+ nl +:+ "cs" +:+ nl +:+ "a1" +:+ nl +:+ "as1" in
  let s := Stub.signer (inl (Stub.creds "t1" "s1")) (inl (Stub.creds "a1" "as1"))
             (inl (Stub.response 200 "{}")) in
  let run content input :=
    snd (main Stub.unmarshalPlurk Stub.marshalPlurk (Stub.os "config.json" content)
           s "config.json" (initial input)) in
  Stub.unmarshalPlurk stored
    = inl {| ConsumerToken := "ck"; ConsumerSecret := "cs";
             AccessToken := "at"; AccessSecret := "as" |}
  ∧ handshake (trace (run stored [])) = []
  ∧ written (trace (run stored [])) = []
  ∧ Stub.unmarshalPlurk fresh
    = inl {| ConsumerToken := "ck"; ConsumerSecret := "cs";
             AccessToken := ""; AccessSecret := "" |}
  ∧ written (trace (run fresh ["1234"])) = [("config.json", renewed)].
Proof.
  intros stored fresh renewed s run.
  split_and!; [reflexivity| | |reflexivity|].
  - destruct (access_credentials_persistence Stub.unmarshalPlurk Stub.marshalPlurk
                (Stub.os "config.json" stored) s "config.json" [] stored
                {| ConsumerToken := "ck"; ConsumerSecret := "cs";
                   AccessToken := "at"; AccessSecret := "as" |} eq_refl eq_refl)
      as [Hstored _].
    by destruct Hstored as (_ & Hh & _).
  - destruct (access_credentials_persistence Stub.unmarshalPlurk Stub.marshalPlurk
                (Stub.os "config.json" stored) s "config.json" [] stored
                {| ConsumerToken := "ck"; ConsumerSecret := "cs";
                   AccessToken := "at"; AccessSecret := "as" |} eq_refl eq_refl)
      as [Hstored _].
    by destruct Hstored as (_ & _ & Hw).
  - destruct (access_credentials_persistence Stub.unmarshalPlurk Stub.marshalPlurk
                (Stub.os "config.json" fresh) s "config.json" ["1234"] fresh
                {| ConsumerToken := "ck"; ConsumerSecret := "cs";
                   AccessToken := ""; AccessSecret := "" |} eq_refl eq_refl)
      as [_ Hfresh].
    destruct (Hfresh (or_introl eq_refl) (Stub.creds "t1" "s1") (Stub.creds "a1" "as1")
                renewed eq_refl eq_refl eq_refl) as (_ & _ & Hw).
    exact Hw.
Defined.

End CLI.

(** ** The consumer identity *)

Section Consumer.

Lemma startup_ok TU os credPath b k :
  ReadFile os credPath = inl b →
  TU b (oauth.Credentials_ (Twitter.oauthClient Twitter.initial)) = inl k →
  ∃ w, Twitter.startup TU os credPath = Returned w
       ∧ oauth.Credentials_ (Twitter.oauthClient w) = k
       ∧ oauth.Credentials_ (Twitter.signinOAuthClient w) = k
       ∧ Twitter.secrets w = ∅
       ∧ Twitter.trace w = [EvReadFile credPath].
Proof.
  intros Hfile Hjson. unfold Twitter.startup, Twitter.readCredentials. simpl.
  rewrite Hfile. simpl in Hjson. rewrite Hjson. simpl. by eexists.
Qed.

Lemma setCredentials_same (c : oauth.Client) :
  oauth.setCredentials c (oauth.Credentials_ c) = c.
Proof. by destruct c. Qed.

Lemma GetAccessToken_client s cred (pw : Plurk.World) :
  Plurk.oauthClient (snd (Plurk.GetAccessToken s cred pw))
  = oauth.setCredentials (Plurk.oauthClient pw) (Plurk.consumer cred).
Proof.
  destruct (decide (Plurk.AccessToken cred = "")) as [Ht|Ht];
    [|destruct (decide (Plurk.AccessSecret cred = "")) as [Hs|Hs]].
  3: by rewrite GetAccessToken_stored.
  all: rewrite GetAccessToken_handshake by auto.
  all: by destruct (RequestTemporaryCredentials _ _ _).
Qed.

Lemma GetAccessToken_consumer s cred (pw : Plurk.World) r cred' :
  fst (Plurk.GetAccessToken s cred pw) = Returned (r, cred') →
  Plurk.consumer cred' = Plurk.consumer cred.
Proof.
  destruct (decide (Plurk.AccessToken cred = "")) as [Ht|Ht];
    [|destruct (decide (Plurk.AccessSecret cred = "")) as [Hs|Hs]].
  3: rewrite GetAccessToken_stored by done; by intros [= <- <-].
  all: rewrite GetAccessToken_handshake by auto.
  all: destruct (RequestTemporaryCredentials _ _ _); simpl;
         [destruct (RequestToken _ _ _ _); simpl|].
  all: by intros [= <- <-].
Qed.

Lemma Plurk_main_consumer PU PM os s credPath input b cred :
  ReadFile os credPath = inl b → PU b = inl cred →
  let final := snd (Plurk.main PU PM os s credPath (Plurk.initial input)) in
  oauth.Credentials_ (Plurk.oauthClient final) = Plurk.consumer cred
  ∧ reads (Plurk.trace final) = 1
  ∧ ∀ p content, (p, content) ∈ written (Plurk.trace final) →
      ∃ cred', PM cred' = inl content ∧ Plurk.consumer cred' = Plurk.consumer cred.
Proof.
  intros Hfile Hjson final.
  pose proof (main_run PU PM os s credPath input b cred Hfile Hjson) as Hrun.
  cbv zeta in Hrun.
  match type of Hrun with
  | context [Plurk.GetAccessToken s cred ?w] =>
      pose proof (GetAccessToken_client s cred w) as Hclient;
      pose proof (GetAccessToken_consumer s cred w) as Hcons;
      assert (Hreads : reads (Plurk.trace (snd (Plurk.GetAccessToken s cred w))) = 1
                       ∧ written (Plurk.trace (snd (Plurk.GetAccessToken s cred w)))
                         = []);
      [|destruct (Plurk.GetAccessToken s cred w)
          as [[[[[token authorized] err] cred']|msg] w2]]
  end.
  { destruct (decide (Plurk.AccessToken cred = "")) as [Ht|Ht];
      [|destruct (decide (Plurk.AccessSecret cred = "")) as [Hs|Hs]].
    3: by rewrite GetAccessToken_stored.
    all: rewrite GetAccessToken_handshake by auto.
    all: by destruct (RequestTemporaryCredentials _ _ _). }
  - simpl in *. destruct Hreads as [Hr Hw].
    destruct Hrun as (evs & (Hqr & Hqw & _) & Hc & Htrace).
    fold final in Hc, Htrace. rewrite Hc, Hclient, Htrace.
    rewrite !reads_app, !written_app, Hr, Hw, Hqr, Hqw, app_nil_r. simpl.
    split_and!; [done|..].
    + destruct authorized; [destruct (PM cred')|]; simpl; done.
    + intros p content. destruct authorized; [|by intros ?%elem_of_nil].
      destruct (PM cred') as [bytes|merr] eqn:Hbytes; [|by intros ?%elem_of_nil].
      simpl. rewrite list_elem_of_singleton. intros [= -> ->].
      exists cred'. split; [done|]. by eapply Hcons.
  - simpl in *. destruct Hreads as [Hr Hw].
    unfold final. rewrite Hrun. simpl. rewrite Hclient, Hr, Hw.
    split_and!; [done..|]. by intros p content ?%elem_of_nil.
Qed.

(** C8.  The consumer key and secret come from the one reading of the
    configuration file at the start of the process and stay as read.  In
    the server both clients hold them after any requests served, and no
    handler assigns a client.  In the command line client [oauthClient]
    holds them at the end of every run, whatever is written to the
    configuration file keeps them, and after [GetAccessToken] has stored
    them no operation changes [oauthClient]. *)
Theorem consumer_identity_immutable (JSON : Type) DS DM TU PU PM os s credPath xs
    input b :
  ReadFile os credPath = inl b →
  (∀ k, TU b (oauth.Credentials_ (Twitter.oauthClient Twitter.initial)) = inl k →
     ∃ w, Twitter.main JSON DS DM TU os credPath xs = Returned w
          ∧ oauth.Credentials_ (Twitter.oauthClient w) = k
          ∧ oauth.Credentials_ (Twitter.signinOAuthClient w) = k
          ∧ reads (Twitter.trace w) = 1)
  ∧ (∀ w x,
       Twitter.oauthClient (Twitter.serve1 JSON DS DM w x) = Twitter.oauthClient w
       ∧ Twitter.signinOAuthClient (Twitter.serve1 JSON DS DM w x)
         = Twitter.signinOAuthClient w)
  ∧ (∀ cred, PU b = inl cred →
       let final := snd (Plurk.main PU PM os s credPath (Plurk.initial input)) in
       oauth.Credentials_ (Plurk.oauthClient final) = Plurk.consumer cred
       ∧ reads (Plurk.trace final) = 1
       ∧ ∀ p content, (p, content) ∈ written (Plurk.trace final) →
           ∃ cred', PM cred' = inl content
                    ∧ Plurk.consumer cred' = Plurk.consumer cred)
  ∧ (∀ (pw : Plurk.World) requestToken token _url (opt : gmap string string) cred,
       Plurk.oauthClient (snd (Plurk.doAuth s requestToken pw)) = Plurk.oauthClient pw
       ∧ Plurk.oauthClient (snd (Plurk.CallAPI s token _url opt pw))
         = Plurk.oauthClient pw
       ∧ (oauth.Credentials_ (Plurk.oauthClient pw) = Plurk.consumer cred →
          Plurk.oauthClient (snd (Plurk.GetAccessToken s cred pw))
          = Plurk.oauthClient pw)
       ∧ (∀ r cred', fst (Plurk.GetAccessToken s cred pw) = Returned (r, cred') →
                     Plurk.consumer cred' = Plurk.consumer cred)).
Proof.
  intros Hfile. split_and!.
  - intros k Hjson.
    destruct (startup_ok TU os credPath b k Hfile Hjson)
      as (w0 & Hstart & Hc & Hsc & _ & Htrace).
    unfold Twitter.main. rewrite Hstart. eexists; split; [done|].
    destruct (serve_frame JSON DS DM xs w0) as (-> & -> & -> & _).
    by rewrite Htrace.
  - intros w x. by destruct (serve1_frame JSON DS DM w x) as (-> & -> & _).
  - intros cred Hjson.
    by apply (Plurk_main_consumer PU PM os s credPath input b cred).
  - intros pw requestToken token _url opt cred. split_and!.
    + by rewrite doAuth_cases.
    + by destruct (CallAPI_frame s token _url opt pw) as (evs & _ & ->).
    + intros Hk. rewrite GetAccessToken_client, <-Hk. apply setCredentials_same.
    + intros r cred'. apply GetAccessToken_consumer.
Qed.

Lemma consumer_identity_immutable_witness :
  let JSON := gmap string string in
  let s := Stub.signer (inl (Stub.creds "t1" "s1")) (inl (Stub.creds "a1" "as1"))
             (inl (Stub.response 200 Stub.validBody)) in
  let xs : list Twitter.Served :=
    [(s, 0%Z, Stub.request "/authorize" [] []);
     (s, 1%Z, Stub.request "/callback"
                [("oauth_token", "t1"); ("oauth_verifier", "1234")] []);
     (s, 2%Z, Stub.request "/follow" [] [("auth", "a1")]);
     (s, 3%Z, Stub.request "/logout" [] [("auth", "a1")])] in
  let server := "ck" +:+ Plurk.nl +:+ "cs" in
  ReadFile (Stub.os "config.json" server) "config.json" = inl server
  ∧ ∃ w, Twitter.main JSON Stub.decodeObject Stub.decodeObject
           Stub.unmarshalCredentials (Stub.os "config.json" server) "config.json" xs
         = Returned w
         ∧ oauth.Credentials_ (Twitter.oauthClient w) = Stub.creds "ck" "cs"
         ∧ oauth.Credentials_ (Twitter.signinOAuthClient w) = Stub.creds "ck" "cs"
         ∧ reads (Twitter.trace w) = 1.
Proof.
  intros JSON s xs server. split; [reflexivity|].
  destruct (consumer_identity_immutable JSON Stub.decodeObject Stub.decodeObject
              Stub.unmarshalCredentials Stub.unmarshalPlurk Stub.marshalPlurk
              (Stub.os "config.json" server) s "config.json" xs [] server eq_refl)
    as (Hserver & _).
  exact (Hserver (Stub.creds "ck" "cs") eq_refl).
Defined.

End Consumer.

(** * Further properties of the server *)

Section Server.

Import Twitter.

Implicit Types (w : World) (s : Signer) (r : Request) (T : string).

(** X1.  The data routes are closed to a request without a session: when
    the request has no [auth] cookie, or one whose value is not a key of
    the store, the answer is 403 and nothing else happens, no request is
    sent to the API. *)
Theorem protected_route_requires_session (JSON : Type) DS DM s now r w :
  URLPath r ∈ ["/timeline"; "/messages"; "/follow"] →
  (∀ v, Cookie_ r "auth" = Some v → secrets w !! v = None) →
  route JSON DS DM s now r w = (http_Error "Not logged in." 403, w).
Proof.
  intros Hpath Hcookie.
  assert (Hcred : match Cookie_ r "auth" with
                  | Some v => getCredentials v w
                  | None => None
                  end = None).
  { destruct (Cookie_ r "auth") as [v|]; [|done].
    apply getCredentials_None. by apply Hcookie. }
  unfold route, ServeHTTP.
  repeat (apply elem_of_cons in Hpath as [->|Hpath]; [by rewrite Hcred|]).
  by apply elem_of_nil in Hpath.
Qed.

Lemma protected_route_requires_session_witness :
  let JSON := gmap string string in
  let s := Stub.signer (inl (Stub.creds "t1" "s1")) (inl (Stub.creds "a1" "as1"))
             (inl (Stub.response 200 Stub.validBody)) in
  let w := Stub.world [("a1", "as1")] in
  let r := Stub.request "/follow" [] [("auth", "forged")] in
  URLPath r ∈ ["/timeline"; "/messages"; "/follow"]
  ∧ route JSON Stub.decodeObject Stub.decodeObject s 0 r w
    = (http_Error "Not logged in." 403, w).
Proof.
  intros JSON s w r.
  assert (Hpath : URLPath r ∈ ["/timeline"; "/messages"; "/follow"]).
  { apply elem_of_cons; right. apply elem_of_cons; right. by apply elem_of_cons; left. }
  split; [exact Hpath|].
  apply (protected_route_requires_session JSON Stub.decodeObject Stub.decodeObject
           s 0 r w Hpath).
  intros v [= <-]. reflexivity.
Defined.

(** X2.  A data route reached with a session sends one request to the
    API, signed with the credentials of the session (the value of the
    cookie and the secret stored under it), and leaves the store as it is.
    It answers with the page made from the decoded data, or with a 500 that
    carries the message of the error of the transport or of the decoding. *)
Theorem data_route_with_session (JSON : Type) DS DM s now r w v secret :
  Cookie_ r "auth" = Some v → secrets w !! v = Some secret →
  let cred := Some {| oauth.Token := v; oauth.Secret := secret |} in
  let answer t prefix (res : JSON + error) : Response JSON :=
    match res with
    | inl data => respond t (Some data)
    | inr err => http_Error (prefix +:+ Error err) 500
    end in
  let result (res : HTTPResponse + error) D : JSON + error :=
    match res with
    | inl resp => decodeResponse JSON D resp
    | inr err => inr err
    end in
  let timeline := "http://api.twitter.com/1/statuses/home_timeline.json" in
  let messages := "http://api.twitter.com/1/direct_messages.json" in
  let follow := "https://api.twitter.com/1.1/friendships/create.json" in
  let form : Values := <["screen_name" := ["gburd"]]> (<["follow" := ["true"]]> ∅) in
  (URLPath r = "/timeline" →
   route JSON DS DM s now r w
   = (answer timelineTmpl "Error getting timeline, "
        (result (Get s (oauthClient w) cred timeline ∅) DS),
      emit (EvGet (oauthClient w) cred timeline ∅) w))
  ∧ (URLPath r = "/messages" →
     route JSON DS DM s now r w
     = (answer messagesTmpl "Error getting timeline, "
          (result (Get s (oauthClient w) cred messages ∅) DS),
        emit (EvGet (oauthClient w) cred messages ∅) w))
  ∧ (URLPath r = "/follow" →
     route JSON DS DM s now r w
     = (answer followTmpl "Error following, "
          (result (Post s (oauthClient w) cred follow form) DM),
        emit (EvPost (oauthClient w) cred follow form) w)).
Proof.
  intros Hcookie Hsecret cred answer result timeline messages follow form.
  assert (Hcred : getCredentials v w = cred).
  { unfold getCredentials. by rewrite Hsecret. }
  split_and!; intros Hpath; unfold route, ServeHTTP; rewrite Hpath; simpl;
    rewrite Hcookie, Hcred; simpl.
  - unfold serveTimeline, apiGet. simpl. fold timeline.
    destruct (Get s (oauthClient w) cred timeline ∅) as [resp|err]; simpl; [|done].
    by destruct (decodeResponse JSON DS resp).
  - unfold serveMessages, apiGet. simpl. fold messages.
    destruct (Get s (oauthClient w) cred messages ∅) as [resp|err]; simpl; [|done].
    by destruct (decodeResponse JSON DS resp).
  - unfold serveFollow, apiPost. simpl. fold follow. fold form.
    destruct (Post s (oauthClient w) cred follow form) as [resp|err]; simpl; [|done].
    by destruct (decodeResponse JSON DM resp).
Qed.

Lemma data_route_with_session_witness :
  let JSON := gmap string string in
  let s := Stub.signer (inl (Stub.creds "t1" "s1")) (inl (Stub.creds "a1" "as1"))
             (inl (Stub.response 200 Stub.validBody)) in
  let w := Stub.world [("a1", "as1")] in
  let r := Stub.request "/follow" [] [("auth", "a1")] in
  let cred := Some (Stub.creds "a1" "as1") in
  let form : Values := <["screen_name" := ["gburd"]]> (<["follow" := ["true"]]> ∅) in
  Cookie_ r "auth" = Some "a1"
  ∧ secrets w !! "a1" = Some "as1"
  ∧ route JSON Stub.decodeObject Stub.decodeObject s 0 r w
    = (respond followTmpl (Some (<["id" := "1"]> (<["text" := "hi"]> ∅))),
       emit (EvPost (oauthClient w) cred
               "https://api.twitter.com/1.1/friendships/create.json" form) w).
Proof.
  intros JSON s w r cred form.
  assert (Hcookie : Cookie_ r "auth" = Some "a1") by reflexivity.
  assert (Hsecret : secrets w !! "a1" = Some "as1") by reflexivity.
  split_and!; [exact Hcookie|exact Hsecret|].
  destruct (data_route_with_session JSON Stub.decodeObject Stub.decodeObject s 0 r w
              "a1" "as1" Hcookie Hsecret) as (_ & _ & Hfollow).
  rewrite (Hfollow eq_refl). by f_equal.
Defined.

(** X3.  A begin whose request for temporary credentials succeeds, at
    either entry point, stores the temporary credentials under their token,
    leaves the other entries of the store alone, sets no cookie and
    redirects to the authorization URL of its own client for them. *)
Theorem begin_success (JSON : Type) s r w tempCred :
  let callback := "http://" +:+ Host r +:+ "/callback" in
  (RequestTemporaryCredentials s (signinOAuthClient w) callback = inl tempCred →
   let w' := snd (serveSignin JSON s r w) in
   fst (serveSignin JSON s r w)
   = http_Redirect [] (AuthorizationURL s (signinOAuthClient w) tempCred) 302
   ∧ getCredentials (oauth.Token tempCred) w' = Some tempCred
   ∧ ∀ T, T ≠ oauth.Token tempCred → getCredentials T w' = getCredentials T w)
  ∧ (RequestTemporaryCredentials s (oauthClient w) callback = inl tempCred →
     let w' := snd (serveAuthorize JSON s r w) in
     fst (serveAuthorize JSON s r w)
     = http_Redirect [] (AuthorizationURL s (oauthClient w) tempCred) 302
     ∧ getCredentials (oauth.Token tempCred) w' = Some tempCred
     ∧ ∀ T, T ≠ oauth.Token tempCred → getCredentials T w' = getCredentials T w).
Proof.
  intros callback. split; intros Hok w'; unfold w'.
  - unfold serveSignin. simpl. fold callback. rewrite Hok. simpl.
    split_and!; [done|apply get_put_eq|].
    intros T HT. by rewrite get_put_ne.
  - unfold serveAuthorize. simpl. fold callback. rewrite Hok. simpl.
    split_and!; [done|apply get_put_eq|].
    intros T HT. by rewrite get_put_ne.
Qed.

Lemma begin_success_witness :
  let s := Stub.signer (inl (Stub.creds "t1" "s1")) (inl (Stub.creds "a1" "as1"))
             (inl (Stub.response 200 "")) in
  let r := Stub.request "/signin" [] [] in
  let w := Stub.world [("t0", "s0")] in
  getCredentials "t1" (snd (serveSignin unit s r w)) = Some (Stub.creds "t1" "s1")
  ∧ getCredentials "t0" (snd (serveSignin unit s r w)) = Some (Stub.creds "t0" "s0")
  ∧ getCredentials "t1" (snd (serveAuthorize unit s r w)) = Some (Stub.creds "t1" "s1").
Proof.
  intros s r w.
  destruct (begin_success unit s r w (Stub.creds "t1" "s1")) as [Hsignin Hauthorize].
  destruct (Hsignin eq_refl) as (_ & Hput & Hothers).
  destruct (Hauthorize eq_refl) as (_ & Hput' & _).
  split_and!; [exact Hput| |exact Hput'].
  rewrite (Hothers "t0"); [reflexivity|discriminate].
Defined.

(** X4.  In every run of the server that gets past the reading of the
    configuration, whatever requests were served, the two clients hold the
    same consumer credentials and the same endpoints for temporary
    credentials and for the exchange, and differ in the authorization
    endpoint only: [authorize] for [/authorize], [authenticate] for
    [/signin]. *)
Theorem clients_differ_in_authorization_only (JSON : Type) DS DM TU os credPath xs w :
  main JSON DS DM TU os credPath xs = Returned w →
  signinOAuthClient w
  = oauth.setResourceOwnerAuthorizationURI (oauthClient w)
      "http://api.twitter.com/oauth/authenticate"
  ∧ oauth.ResourceOwnerAuthorizationURI (oauthClient w)
    = "http://api.twitter.com/oauth/authorize"
  ∧ oauth.TemporaryCredentialRequestURI (oauthClient w)
    = "http://api.twitter.com/oauth/request_token"
  ∧ oauth.TokenRequestURI (oauthClient w) = "http://api.twitter.com/oauth/access_token".
Proof.
  unfold main. destruct (startup TU os credPath) as [w0|msg] eqn:Hstart; [|done].
  intros [= <-].
  destruct (serve_frame JSON DS DM xs w0) as (-> & -> & _).
  unfold startup, readCredentials in Hstart. simpl in Hstart.
  destruct (ReadFile os credPath) as [b|err]; [|done].
  destruct (TU b _) as [k|err]; [|done].
  by injection Hstart as <-.
Qed.

Lemma clients_differ_in_authorization_only_witness :
  let JSON := gmap string string in
  let s := Stub.signer (inl (Stub.creds "t1" "s1")) (inl (Stub.creds "a1" "as1"))
             (inl (Stub.response 200 Stub.validBody)) in
  let xs := [((s, 0%Z, Stub.request "/signin" [] []) : Served)] in
  let server := "ck" +:+ Plurk.nl +:+ "cs" in
  ∃ w, main JSON Stub.decodeObject Stub.decodeObject Stub.unmarshalCredentials
         (Stub.os "config.json" server) "config.json" xs = Returned w
       ∧ oauth.TokenRequestURI (signinOAuthClient w)
         = oauth.TokenRequestURI (oauthClient w)
       ∧ oauth.ResourceOwnerAuthorizationURI (signinOAuthClient w)
         = "http://api.twitter.com/oauth/authenticate".
Proof.
  intros JSON s xs server. eexists. split; [reflexivity|].
  match goal with
  | |- context [oauthClient ?w] =>
      destruct (clients_differ_in_authorization_only JSON Stub.decodeObject
                  Stub.decodeObject Stub.unmarshalCredentials
                  (Stub.os "config.json" server) "config.json" xs w eq_refl)
        as (Hsignin & _)
  end.
  rewrite Hsignin. by split.
Defined.

(** X5.  When the configuration file cannot be read, or its content is
    not decoded, the server ends in [log.Fatalf] with the message of the
    error before it serves anything. *)
Theorem startup_failure (JSON : Type) DS DM TU os credPath xs err :
  ReadFile os credPath = inr err
  ∨ (∃ b, ReadFile os credPath = inl b
          ∧ TU b (oauth.Credentials_ (oauthClient initial)) = inr err) →
  main JSON DS DM TU os credPath xs
  = Fatal ("Error reading configuration, " +:+ Error err).
Proof.
  unfold main, startup, readCredentials. simpl.
  intros [Hfile|(b & Hfile & Hjson)]; rewrite Hfile; [done|].
  simpl in Hjson. by rewrite Hjson.
Qed.

Lemma startup_failure_witness :
  let JSON := gmap string string in
  main JSON Stub.decodeObject Stub.decodeObject Stub.unmarshalCredentials
    (Stub.os "config.json" "ck") "missing.json" []
  = Fatal "Error reading configuration, open missing.json: no such file or directory"
  ∧ main JSON Stub.decodeObject Stub.decodeObject Stub.unmarshalCredentials
      (Stub.os "config.json" "ck") "config.json" []
    = Fatal "Error reading configuration, unexpected end of JSON input".
Proof.
  intros JSON. split.
  - apply (startup_failure JSON Stub.decodeObject Stub.decodeObject
             Stub.unmarshalCredentials (Stub.os "config.json" "ck") "missing.json" []
             (IOErr "open missing.json: no such file or directory")).
    by left.
  - apply (startup_failure JSON Stub.decodeObject Stub.decodeObject
             Stub.unmarshalCredentials (Stub.os "config.json" "ck") "config.json" []
             (JSONErr "unexpected end of JSON input")).
    right. by exists "ck".
Defined.

(** The store after a request, by the route. *)
Lemma serve1_secrets (JSON : Type) DS DM w (x : Served) :
  let s := x.1.1 in
  let r := x.2 in
  let callback := "http://" +:+ Host r +:+ "/callback" in
  secrets (serve1 JSON DS DM w x)
  = if bool_decide (URLPath r = "/signin") then
      match RequestTemporaryCredentials s (signinOAuthClient w) callback with
      | inl c => <[oauth.Token c := oauth.Secret c]> (secrets w)
      | inr _ => secrets w
      end
    else if bool_decide (URLPath r = "/authorize") then
      match RequestTemporaryCredentials s (oauthClient w) callback with
      | inl c => <[oauth.Token c := oauth.Secret c]> (secrets w)
      | inr _ => secrets w
      end
    else if bool_decide (URLPath r = "/callback") then
      match getCredentials (FormValue r "oauth_token") w with
      | Some tempCred =>
          match RequestToken s (oauthClient w) tempCred
                  (FormValue r "oauth_verifier") with
          | inl c => <[oauth.Token c := oauth.Secret c]>
                       (delete (FormValue r "oauth_token") (secrets w))
          | inr _ => delete (FormValue r "oauth_token") (secrets w)
          end
      | None => secrets w
      end
    else secrets w.
Proof.
  destruct x as [[s now] r]. unfold serve1, route. simpl.
  repeat case_bool_decide; simplify_eq/=;
    try match goal with H : URLPath r = _ |- _ => rewrite H in *; clear H end;
    try done.
  all: unfold ServeHTTP, serveTimeline, serveMessages, serveFollow, serveHome,
         serveSignin, serveAuthorize, serveLogout, serveOAuthCallback.
  all: repeat (case_match; simplify_eq/=).
  all: repeat match goal with
         | H : apiGet ?J ?s ?D ?c ?u ?f ?w1 = (_, ?w0) |- _ =>
             let E := fresh in
             pose proof (apiGet_world J s D c u f w1) as E; rewrite H in E;
             simpl in E; subst w0; clear H
         | H : apiPost ?J ?s ?D ?c ?u ?f ?w1 = (_, ?w0) |- _ =>
             let E := fresh in
             pose proof (apiPost_world J s D c u f w1) as E; rewrite H in E;
             simpl in E; subst w0; clear H
         end.
  all: try done.
  all: match goal with
       | H : getCredentials _ _ = Some _ |- _ =>
           apply getCredentials_Some in H as [<- _]
       end; done.
Qed.



Lemma serve1_keeps_entry (JSON : Type) DS DM w (x : Served) T :
  completes T x = false → T ∉ issued x w →
  secrets (serve1 JSON DS DM w x) !! T = secrets w !! T.
Proof.
  intros Hcompletes Hissued. rewrite serve1_secrets. cbv zeta.
  unfold issued in Hissued. unfold completes in Hcompletes. revert Hissued.
  repeat case_bool_decide; simplify_eq/=; try done.
  all: repeat case_match; simplify_eq/=; try done.
  all: intros Hissued; rewrite ?lookup_insert_ne, ?lookup_delete_ne; try done.
  all: intros Heq; apply Hissued, list_elem_of_singleton; done.
Qed.

(** X7.  An entry of the store stays as it is until a callback names its
    token or the remote service issues credentials with the same token:
    through any other requests, logouts and data requests among them, the
    lookup of the token gives what it gave before.  Nothing expires. *)
Theorem entry_outlives_other_requests (JSON : Type) DS DM xs w T :
  Forall (λ x, completes T x = false) xs →
  T ∉ issuedAll JSON DS DM xs w →
  getCredentials T (serve JSON DS DM xs w) = getCredentials T w.
Proof.
  unfold serve. intros Hxs. revert w.
  induction Hxs as [|x xs Hx _ IH]; intros w Hissued; simpl in *; [done|].
  rewrite IH.
  - unfold getCredentials. rewrite serve1_keeps_entry; [done..|].
    intros Hin. apply Hissued, elem_of_app. by left.
  - intros Hin. apply Hissued, elem_of_app. by right.
Qed.

Lemma entry_outlives_other_requests_witness :
  let JSON := gmap string string in
  let s := Stub.signer (inl (Stub.creds "t2" "s2")) (inl (Stub.creds "a2" "as2"))
             (inl (Stub.response 200 Stub.validBody)) in
  let xs : list Served :=
    [(s, 0%Z, Stub.request "/logout" [] [("auth", "t1")]);
     (s, 1%Z, Stub.request "/authorize" [] []);
     (s, 2%Z, Stub.request "/callback"
                [("oauth_token", "t2"); ("oauth_verifier", "1234")] []);
     (s, 3%Z, Stub.request "/timeline" [] [("auth", "a2")])] in
  let w := Stub.world [("t1", "s1")] in
  Forall (λ x, completes "t1" x = false) xs
  ∧ ("t1" ∉ issuedAll JSON Stub.decodeObject Stub.decodeObject xs w)
  ∧ getCredentials "t1" (serve JSON Stub.decodeObject Stub.decodeObject xs w)
    = Some (Stub.creds "t1" "s1").
Proof.
  intros JSON s xs w.
  assert (Hxs : Forall (λ x, completes "t1" x = false) xs) by (repeat constructor).
  assert (Hissued : "t1" ∉ issuedAll JSON Stub.decodeObject Stub.decodeObject xs w).
  { intros Hin. vm_compute in Hin.
    repeat (apply elem_of_cons in Hin as [Hin|Hin]; [discriminate|]).
    by apply elem_of_nil in Hin. }
  split_and!; [exact Hxs|exact Hissued|].
  by rewrite (entry_outlives_other_requests JSON Stub.decodeObject Stub.decodeObject
                xs w "t1" Hxs Hissued).
Defined.





End Server.

(** * Further properties of the command line client *)

Section Command.

Import Plurk.

Implicit Types (s : Signer) (pw : World) (cred : PlurkCredentials).

Local Arguments doAuth : simpl never.
Local Arguments GetAccessToken : simpl never.
Local Arguments callAPI_ : simpl never.
Local Arguments CallAPI : simpl never.

Ltac run :=
  unfold mbind, Prog_bind, mret, Prog_ret, getClient, setClient, emit,
    fmt_Scan, log_Fatal; simpl.

(** [CallAPI], by the answer of the transport. *)
Lemma CallAPI_cases s token _url (opt : gmap string string) pw :
  let apiURL := baseURL +:+ _url in
  let param := SignParam s (oauthClient pw) token "POST" apiURL ((λ v, [v]) <$> opt) in
  CallAPI s token _url opt pw
  = match PostForm s apiURL param with
    | inr err =>
        (Returned (inr err),
         {| oauthClient := oauthClient pw; stdin := stdin pw;
            trace := trace pw ++
              [EvPostForm apiURL param;
               EvLog ("failed to call API: " +:+ Error err +:+ " " +:+ apiURL)] |})
    | inl res =>
        match BodyErr res with
        | Some err =>
            (Returned (inr err),
             {| oauthClient := oauthClient pw; stdin := stdin pw;
                trace := trace pw ++
                  [EvPostForm apiURL param;
                   EvLog ("failed to get response: " +:+ Error err)] |})
        | None =>
            if bool_decide (StatusCode res ≠ 200%Z) then
              (Returned (inr (Errorf (Body res))),
               {| oauthClient := oauthClient pw; stdin := stdin pw;
                  trace := trace pw ++
                    [EvPostForm apiURL param;
                     EvLog ("failed to call API err=200: <nil> " +:+ apiURL)] |})
            else
              (Returned (inl (Body res)),
               {| oauthClient := oauthClient pw; stdin := stdin pw;
                  trace := trace pw ++ [EvPostForm apiURL param] |})
        end
    end.
Proof.
  intros apiURL param. unfold CallAPI, callAPI, callAPI_. run.
  fold apiURL. fold param.
  destruct (PostForm s apiURL param) as [res|err]; simpl.
  - destruct (BodyErr res) as [err|]; simpl; [|case_bool_decide; simpl].
    all: by rewrite <-?app_assoc.
  - by rewrite <-?app_assoc.
Qed.

(** X10.  A data request of the command line client returns a body
    exactly when the transport answered with status 200 and the body was
    read to its end, and the body returned is the one of the response.  An
    error of the transport or of the reading is returned as it is, the
    error of the reading whatever the status.  The call never ends the
    process, and sends one request, a POST form to the URL under the base
    URL with the signed options. *)
Theorem CallAPI_result s token _url (opt : gmap string string) pw :
  let apiURL := baseURL +:+ _url in
  let param := SignParam s (oauthClient pw) token "POST" apiURL ((λ v, [v]) <$> opt) in
  (∀ body, fst (CallAPI s token _url opt pw) = Returned (inl body)
           ↔ ∃ res, PostForm s apiURL param = inl res ∧ BodyErr res = None
                    ∧ StatusCode res = 200%Z ∧ Body res = body)
  ∧ (∀ err, PostForm s apiURL param = inr err →
            fst (CallAPI s token _url opt pw) = Returned (inr err))
  ∧ (∀ res err, PostForm s apiURL param = inl res → BodyErr res = Some err →
                fst (CallAPI s token _url opt pw) = Returned (inr err))
  ∧ (∃ result, fst (CallAPI s token _url opt pw) = Returned result)
  ∧ requests (trace (snd (CallAPI s token _url opt pw)))
    = requests (trace pw) ++ [EvPostForm apiURL param].
Proof.
  intros apiURL param.
  pose proof (CallAPI_cases s token _url opt pw) as Hcases. cbv zeta in Hcases.
  fold apiURL in Hcases. fold param in Hcases. rewrite Hcases. clear Hcases.
  split_and!.
  - intros body. split.
    + destruct (PostForm s apiURL param) as [res|err]; [|by intros [=]].
      destruct (BodyErr res) as [err|] eqn:Hread; [by intros [=]|].
      case_bool_decide as Hstatus; simpl; intros [= <-].
      exists res. split_and!; try done; lia.
    + intros (res & -> & -> & Hstatus & <-).
      rewrite bool_decide_eq_false_2; [done|]. by intros [].
  - by intros err ->.
  - by intros res err -> ->.
  - destruct (PostForm s apiURL param) as [res|err];
      [destruct (BodyErr res); [|case_bool_decide]|]; by eexists.
  - destruct (PostForm s apiURL param) as [res|err];
      [destruct (BodyErr res); [|case_bool_decide]|]; simpl; unfold requests;
      by rewrite !filter_app, ?app_nil_r.
Qed.

Lemma CallAPI_result_witness :
  let s := Stub.signer (inl (Stub.creds "t1" "s1")) (inl (Stub.creds "a1" "as1"))
             (inl {| StatusCode := 500; RequestURL := ""; Body := "partial";
                     BodyErr := Some (IOErr "unexpected EOF") |}) in
  fst (CallAPI s (Some (Stub.creds "a1" "as1")) "/APP/Profile/getOwnProfile" ∅
         (initial []))
  = Returned (inr (IOErr "unexpected EOF")).
Proof.
  intros s.
  destruct (CallAPI_result s (Some (Stub.creds "a1" "as1"))
              "/APP/Profile/getOwnProfile" ∅ (initial [])) as (_ & _ & Hread & _).
  exact (Hread _ (IOErr "unexpected EOF") eq_refl eq_refl).
Defined.

Local Arguments initial : simpl never.
Local Arguments oauth.setCredentials : simpl never.

(** X11.  When the configuration file cannot be read, or its content is
    not decoded, the command line client ends in [log.Fatalf] with the
    message of the error, having done nothing but the reading: no
    handshake, no data request, no prompt. *)
Theorem main_config_failure U M os s credPath input err :
  ReadFile os credPath = inr err
  ∨ (∃ b, ReadFile os credPath = inl b ∧ U b = inr err) →
  main U M os s credPath (initial input)
  = (Fatal ("Error reading credential, " +:+ Error err),
     {| oauthClient := oauthClient (initial input); stdin := input;
        trace := [EvReadFile credPath] |}).
Proof.
  unfold main, ReadCredentials. run.
  intros [Hfile|(b & Hfile & Hjson)]; rewrite Hfile; [done|].
  by rewrite Hjson.
Qed.

Lemma main_config_failure_witness :
  let s := Stub.signer (inl (Stub.creds "t1" "s1")) (inl (Stub.creds "a1" "as1"))
             (inl (Stub.response 200 "{}")) in
  fst (main Stub.unmarshalPlurk Stub.marshalPlurk (Stub.os "config.json" "ck")
         s "config.json" (initial ["1234"]))
  = Fatal "Error reading credential, unexpected end of JSON input"
  ∧ trace (snd (main Stub.unmarshalPlurk Stub.marshalPlurk
                  (Stub.os "config.json" "ck") s "config.json" (initial ["1234"])))
    = [EvReadFile "config.json"].
Proof.
  intros s.
  rewrite (main_config_failure Stub.unmarshalPlurk Stub.marshalPlurk
             (Stub.os "config.json" "ck") s "config.json" ["1234"]
             (JSONErr "unexpected end of JSON input")); [done|].
  right. by exists "ck".
Defined.

(** X12.  A failed request for temporary credentials does not stop the
    command line client: [main] does not look at the error that
    [GetAccessToken] returns.  Nothing is read from the input and nothing is
    written to the configuration file, and the profile request is sent all
    the same, signed with no credentials. *)
Theorem main_goes_on_after_failed_handshake U M os s credPath input b cred err :
  ReadFile os credPath = inl b → U b = inl cred →
  AccessToken cred = "" ∨ AccessSecret cred = "" →
  let c := oauth.setCredentials (oauthClient (initial input)) (consumer cred) in
  let apiURL := baseURL +:+ "/APP/Profile/getOwnProfile" in
  RequestTemporaryCredentials s c "" = inr err →
  let final := snd (main U M os s credPath (initial input)) in
  stdin final = input
  ∧ written (trace final) = []
  ∧ handshake (trace final) = [EvTemporaryCredentials c ""]
  ∧ requests (trace final) = [EvPostForm apiURL (SignParam s c None "POST" apiURL ∅)].
Proof.
  intros Hfile Hjson Habsent c apiURL Htemp final.
  subst c final. unfold main, ReadCredentials.
  run. rewrite Hfile, Hjson. simpl.
  rewrite GetAccessToken_handshake by done. simpl in Htemp |- *.
  rewrite Htemp. simpl.
  match goal with
  | |- context [CallAPI s None ?u ?o ?w] =>
      pose proof (CallAPI_cases s None u o w) as Hcall
  end.
  cbv zeta in Hcall. simpl in Hcall.
  rewrite fmap_empty in Hcall. fold apiURL in Hcall. rewrite Hcall. clear Hcall.
  destruct (PostForm s apiURL _) as [res|perr];
    [destruct (BodyErr res); [|case_bool_decide]|]; simpl; done.
Qed.

Lemma main_goes_on_after_failed_handshake_witness :
  let s := Stub.signer (inr (UpstreamErr "401 Unauthorized"))
             (inl (Stub.creds "a1" "as1")) (inl (Stub.response 200 "{}")) in
  let fresh := "ck" +:+ nl +:+ "cs" +:+ nl +:+ "" +:+ nl +:+ "" in
  let final := snd (main Stub.unmarshalPlurk Stub.marshalPlurk
                      (Stub.os "config.json" fresh) s "config.json" (initial ["1234"])) in
  stdin final = ["1234"]
  ∧ written (trace final) = []
  ∧ requests (trace final)
    = [EvPostForm "https://www.plurk.com/APP/Profile/getOwnProfile" ∅].
Proof.
  intros s fresh final.
  destruct (main_goes_on_after_failed_handshake Stub.unmarshalPlurk Stub.marshalPlurk
              (Stub.os "config.json" fresh) s "config.json" ["1234"] fresh
              {| ConsumerToken := "ck"; ConsumerSecret := "cs";
                 AccessToken := ""; AccessSecret := "" |}
              (UpstreamErr "401 Unauthorized") eq_refl eq_refl (or_introl eq_refl)
              eq_refl) as (Hin & Hw & _ & Hreq).
  by split_and!.
Defined.

(** X13.  After a successful handshake the configuration is written
    before the data request is made.  When the encoding of the configuration
    or the write fails, the command line client ends in [log.Fatal] with the
    message of the error and no data request is sent; when the encoding
    fails no write is attempted. *)
Theorem main_stops_when_store_fails U M os s credPath input b cred requestToken token :
  ReadFile os credPath = inl b → U b = inl cred →
  AccessToken cred = "" ∨ AccessSecret cred = "" →
  let c := oauth.setCredentials (oauthClient (initial input)) (consumer cred) in
  RequestTemporaryCredentials s c "" = inl requestToken →
  RequestToken s c requestToken (hd "" input) = inl token →
  let out := fst (main U M os s credPath (initial input)) in
  let final := snd (main U M os s credPath (initial input)) in
  (∀ err, M (withAccess cred token) = inr err →
     out = Fatal ("failed to store credential: " +:+ Error err)
     ∧ written (trace final) = [] ∧ requests (trace final) = [])
  ∧ (∀ bytes err, M (withAccess cred token) = inl bytes →
       WriteFile os credPath bytes = Some err →
       out = Fatal ("failed to write credential: %v" +:+ Error err)
       ∧ written (trace final) = [(credPath, bytes)] ∧ requests (trace final) = []).
Proof.
  intros Hfile Hjson Habsent c Htemp Hexchange out final.
  assert (Hmain : main U M os s credPath (initial input)
    = match M (withAccess cred token) with
      | inr err =>
          (Fatal ("failed to store credential: " +:+ Error err),
           {| oauthClient := c; stdin := tl input;
              trace := [EvReadFile credPath; EvTemporaryCredentials c "";
                        EvStdout ("Open the following URL and authorize it: "
                                    +:+ AuthorizationURL s c requestToken +:+ nl);
                        EvStdout "Input the PIN code: ";
                        EvToken c requestToken (hd "" input)] |})
      | inl bytes =>
          match WriteFile os credPath bytes with
          | Some err =>
              (Fatal ("failed to write credential: %v" +:+ Error err),
               {| oauthClient := c; stdin := tl input;
                  trace := [EvReadFile credPath; EvTemporaryCredentials c "";
                            EvStdout ("Open the following URL and authorize it: "
                                        +:+ AuthorizationURL s c requestToken +:+ nl);
                            EvStdout "Input the PIN code: ";
                            EvToken c requestToken (hd "" input);
                            EvWriteFile credPath bytes] |})
          | None => main U M os s credPath (initial input)
          end
      end).
  { subst c. unfold main, ReadCredentials. run. rewrite Hfile, Hjson. simpl.
    rewrite GetAccessToken_handshake by done. simpl in Htemp, Hexchange |- *.
    rewrite Htemp, Hexchange. simpl.
    destruct (M (withAccess cred token)) as [bytes|err]; simpl; [|done].
    by destruct (WriteFile os credPath bytes). }
  unfold out, final. split.
  - intros err Hencode. rewrite Hmain, Hencode. by split_and!.
  - intros bytes err Hencode Hwrite. rewrite Hmain, Hencode, Hwrite. by split_and!.
Qed.

Lemma main_stops_when_store_fails_witness :
  let s := Stub.signer (inl (Stub.creds "t1" "s1")) (inl (Stub.creds "a1" "as1"))
             (inl (Stub.response 200 "{}")) in
  let fresh := "ck" +:+ nl +:+ "cs" +:+ nl +:+ "" +:+ nl +:+ "" in
  let renewed := "ck" +:+ nl +:+ "cs" +:+ nl +:+ "a1" +:+ nl +:+ "as1" in
  let os := {| ReadFile := λ _, inl fresh;
               WriteFile := λ _ _, Some (IOErr "permission denied") |} in
  let run := main Stub.unmarshalPlurk Stub.marshalPlurk os s "config.json"
               (initial ["1234"]) in
  fst run = Fatal "failed to write credential: %vpermission denied"
  ∧ written (trace (snd run)) = [("config.json", renewed)]
  ∧ requests (trace (snd run)) = [].
Proof.
  intros s fresh renewed os run.
  destruct (main_stops_when_store_fails Stub.unmarshalPlurk Stub.marshalPlurk os s
              "config.json" ["1234"] fresh
              {| ConsumerToken := "ck"; ConsumerSecret := "cs";
                 AccessToken := ""; AccessSecret := "" |}
              (Stub.creds "t1" "s1") (Stub.creds "a1" "as1")
              eq_refl eq_refl (or_introl eq_refl) eq_refl eq_refl) as [_ Hwrite].
  exact (Hwrite renewed (IOErr "permission denied") eq_refl eq_refl).
Defined.

(** X14.  With access credentials in the configuration the command line
    client does three things and no more: it reads the configuration, sends
    the profile request signed with the stored access credentials, and on a
    response of status 200 prints the body followed by a new line.  On any
    error of the data request it ends in [log.Fatalf] with the message of
    the error. *)
Theorem main_with_stored_credentials U M os s credPath input b cred :
  ReadFile os credPath = inl b → U b = inl cred →
  AccessToken cred ≠ "" → AccessSecret cred ≠ "" →
  let c := oauth.setCredentials (oauthClient (initial input)) (consumer cred) in
  let token := Some {| oauth.Token := AccessToken cred;
                       oauth.Secret := AccessSecret cred |} in
  let apiURL := baseURL +:+ "/APP/Profile/getOwnProfile" in
  let param := SignParam s c token "POST" apiURL ∅ in
  (∀ res, PostForm s apiURL param = inl res → BodyErr res = None →
          StatusCode res = 200%Z →
          main U M os s credPath (initial input)
          = (Returned (),
             {| oauthClient := c; stdin := input;
                trace := [EvReadFile credPath; EvPostForm apiURL param;
                          EvStdout (Body res +:+ nl)] |}))
  ∧ (∀ err,
       fst (CallAPI s token "/APP/Profile/getOwnProfile" ∅
              {| oauthClient := c; stdin := input; trace := [EvReadFile credPath] |})
       = Returned (inr err) →
       fst (main U M os s credPath (initial input)) = Fatal ("failed: " +:+ Error err)).
Proof.
  intros Hfile Hjson Htoken Hsecret c token apiURL param.
  assert (Hmain : main U M os s credPath (initial input)
    = match CallAPI s token "/APP/Profile/getOwnProfile" ∅
              {| oauthClient := c; stdin := input; trace := [EvReadFile credPath] |}
      with
      | (Returned (inl result), w) =>
          (Returned (),
           {| oauthClient := oauthClient w; stdin := stdin w;
              trace := trace w ++ [EvStdout (result +:+ nl)] |})
      | (Returned (inr err), w) => (Fatal ("failed: " +:+ Error err), w)
      | (Fatal msg, w) => (Fatal msg, w)
      end).
  { subst c token. unfold main, ReadCredentials. run. rewrite Hfile, Hjson. simpl.
    rewrite GetAccessToken_stored by done. simpl.
    destruct (CallAPI s _ _ _ _) as [[[result|err]|msg] w]; done. }
  rewrite Hmain. split.
  - intros res Hres Hread Hstatus. rewrite CallAPI_cases. cbn [oauthClient stdin trace].
    rewrite fmap_empty. fold apiURL. fold param. rewrite Hres, Hread.
    rewrite bool_decide_eq_false_2; [done|]. by intros [].
  - intros err Hcall.
    destruct (CallAPI s token _ _ _) as [[[result|err']|msg] w]; simpl in *; congruence.
Qed.

Lemma main_with_stored_credentials_witness :
  let s := Stub.signer (inl (Stub.creds "t1" "s1")) (inl (Stub.creds "a1" "as1"))
             (inl (Stub.response 200 "{}")) in
  let stored := "ck" +:+ nl +:+ "cs" +:+ nl +:+ "at" +:+ nl +:+ "as" in
  main Stub.unmarshalPlurk Stub.marshalPlurk (Stub.os "config.json" stored) s
    "config.json" (initial [])
  = (Returned (),
     {| oauthClient := oauth.setCredentials (oauthClient (initial []))
                         (Stub.creds "ck" "cs");
        stdin := [];
        trace := [EvReadFile "config.json";
                  EvPostForm "https://www.plurk.com/APP/Profile/getOwnProfile" ∅;
                  EvStdout ("{}" +:+ nl)] |}).
Proof.
  intros s stored.
  destruct (main_with_stored_credentials Stub.unmarshalPlurk Stub.marshalPlurk
              (Stub.os "config.json" stored) s "config.json" [] stored
              {| ConsumerToken := "ck"; ConsumerSecret := "cs";
                 AccessToken := "at"; AccessSecret := "as" |} eq_refl eq_refl)
    as [Hok _]; [discriminate..|].
  exact (Hok (Stub.response 200 "{}") eq_refl eq_refl eq_refl).
Defined.

(** X15.  [doAuth] prints the authorization URL and the prompt, takes the
    first word of the input as the verifier (the empty string when the
    input is empty), leaves the rest of the input, and on a successful
    exchange returns the access credentials of the exchange with no error. *)
Theorem doAuth_exchanges_first_word s requestToken pw token :
  RequestToken s (oauthClient pw) requestToken (hd "" (stdin pw)) = inl token →
  doAuth s requestToken pw
  = (Returned (token, None),
     {| oauthClient := oauthClient pw; stdin := tl (stdin pw);
        trace := trace pw ++
          [EvStdout ("Open the following URL and authorize it: "
                       +:+ AuthorizationURL s (oauthClient pw) requestToken +:+ nl);
           EvStdout "Input the PIN code: ";
           EvToken (oauthClient pw) requestToken (hd "" (stdin pw))] |}).
Proof. intros Hexchange. rewrite doAuth_cases. simpl. by rewrite Hexchange. Qed.

Lemma doAuth_exchanges_first_word_witness :
  let s := Stub.signer (inl (Stub.creds "t1" "s1")) (inl (Stub.creds "a1" "as1"))
             (inl (Stub.response 200 "{}")) in
  fst (doAuth s (Stub.creds "t1" "s1") (initial [])) = Returned (Stub.creds "a1" "as1", None)
  ∧ handshake (trace (snd (doAuth s (Stub.creds "t1" "s1") (initial []))))
    = [EvToken (oauthClient (initial [])) (Stub.creds "t1" "s1") ""]
  ∧ stdin (snd (doAuth s (Stub.creds "t1" "s1") (initial ["1234"; "rest"]))) = ["rest"].
Proof.
  intros s.
  rewrite (doAuth_exchanges_first_word s (Stub.creds "t1" "s1") (initial [])
             (Stub.creds "a1" "as1") eq_refl).
  rewrite (doAuth_exchanges_first_word s (Stub.creds "t1" "s1")
             (initial ["1234"; "rest"]) (Stub.creds "a1" "as1") eq_refl).
  by split_and!.
Defined.

End Command.
